(** * A shallow embedding of the ring machinery of ruyi-iou (a Rust io_uring wrapper)

    Shared-memory words and private shadows are 32-bit unsigned counters,
    modelled as [Z] with their wrap-around written out.  The kernel is never
    part of the model: where the kernel runs (a syscall, a concurrent store to
    a shared word) its effect is a parameter or an explicit step. *)

From Stdlib Require Import ZArith Lia Bool List Relation_Operators.
Import ListNotations.
Open Scope Z_scope.

(** ** 32-bit unsigned arithmetic ([u32::wrapping_add], [wrapping_sub], [!]) *)

Definition wrap32 (x : Z) : Z := x mod 2 ^ 32.
Definition wrapping_add (a b : Z) : Z := wrap32 (a + b).
Definition wrapping_sub (a b : Z) : Z := wrap32 (a - b).
Definition u32_not (x : Z) : Z := Z.lxor x (Z.ones 32).

(** [std::io::Result]: an OS error is identified by its raw code. *)
Inductive result (A : Type) : Type :=
| Ok : A -> result A
| Err : Z -> result A.
Arguments Ok {A} _.
Arguments Err {A} _.

Definition EAGAIN : Z := 11.
Definition ETIME : Z := 62.
Definition EOPNOTSUPP : Z := 95.

(** ** Syscall shim: the raw numbers handed to [libc::syscall]

    [src/syscall.rs] and [src/sys.rs] each declare the three numbers; each
    wrapper is modelled by the syscall invocation it performs. *)

Record syscall_invocation := {
  sc_nr : Z;
  sc_args : list Z
}.

Module Syscall.
(* src/syscall.rs, lines 10-17 *)
Definition __NR_io_uring_register : Z := 425.
Definition __NR_io_uring_setup : Z := 426.
Definition __NR_io_uring_enter : Z := 427.

Definition io_uring_register (fd opcode arg nr_args : Z) : syscall_invocation :=
  {| sc_nr := __NR_io_uring_register; sc_args := [fd; opcode; arg; nr_args] |}.
Definition io_uring_setup (entries p : Z) : syscall_invocation :=
  {| sc_nr := __NR_io_uring_setup; sc_args := [entries; p] |}.
Definition io_uring_enter (fd to_submit min_complete flags : Z) : syscall_invocation :=
  {| sc_nr := __NR_io_uring_enter;
     sc_args := [fd; to_submit; min_complete; flags; 0; 0] |}.
Definition io_uring_penter (fd to_submit min_complete flags sig sigsz : Z)
  : syscall_invocation :=
  {| sc_nr := __NR_io_uring_enter;
     sc_args := [fd; to_submit; min_complete; flags; sig; sigsz] |}.
End Syscall.

Module Sys.
(* src/sys.rs, lines 296-337: the numbers are local constants of each wrapper *)
Definition io_uring_register (fd opcode arg nr_args : Z) : syscall_invocation :=
  let __NR_io_uring_register := 425 in
  {| sc_nr := __NR_io_uring_register; sc_args := [fd; opcode; arg; nr_args] |}.
Definition io_uring_setup (entries p : Z) : syscall_invocation :=
  let __NR_io_uring_setup := 426 in
  {| sc_nr := __NR_io_uring_setup; sc_args := [entries; p] |}.
Definition io_uring_enter (fd to_submit min_complete flags sig sigsz : Z)
  : syscall_invocation :=
  let __NR_io_uring_enter := 427 in
  {| sc_nr := __NR_io_uring_enter;
     sc_args := [fd; to_submit; min_complete; flags; sig; sigsz] |}.
End Sys.

(** [cvt] of [src/syscall.rs]: a non-negative value is passed through, a
    negative one becomes [Error::last_os_error()], i.e. an OS error carrying
    the thread-local [errno] (given here as the argument [errno]).  [cq.rs]
    calls it as [sys::cvt]; [src/sys.rs] has no [cvt] of its own. *)
Definition cvt (errno ret : Z) : result Z :=
  if 0 <=? ret then Ok ret else Err errno.

(** ** Submission queue ([src/sq.rs]) *)

(** [struct io_uring_sqe]; the op-flags union is its raw 32-bit word. *)
Record SqEntry := {
  opcode : Z;
  sqe_flags : Z;
  ioprio : Z;
  fd : Z;
  off_addr2 : Z;
  addr_splice_off_in : Z;
  len : Z;
  op_flags : Z;
  sqe_user_data : Z;
  buf_index_group : Z;
  personality : Z;
  splice_fd_in : Z;
  pad2_0 : Z;
  pad2_1 : Z
}.

(** [sq::Queue]: the shared words [khead], [ktail], [kflags], [kdropped]
    are held by value (what the ring memory contains), [sqes] is the mapped
    entry array indexed by slot. *)
Record SqQueue := {
  sq_khead : Z;
  sq_ktail : Z;
  sq_kring_mask : Z;
  sq_kring_entries : Z;
  sq_kflags : Z;
  sq_kdropped : Z;
  sqes : Z -> SqEntry;
  sq_khead_shadow : Z;
  sq_ktail_shadow : Z;
  sqe_head : Z;
  sqe_tail : Z
}.

Definition sq_set_khead_shadow (q : SqQueue) (v : Z) : SqQueue :=
  {| sq_khead := sq_khead q; sq_ktail := sq_ktail q;
     sq_kring_mask := sq_kring_mask q; sq_kring_entries := sq_kring_entries q;
     sq_kflags := sq_kflags q; sq_kdropped := sq_kdropped q; sqes := sqes q;
     sq_khead_shadow := v; sq_ktail_shadow := sq_ktail_shadow q;
     sqe_head := sqe_head q; sqe_tail := sqe_tail q |}.

Definition sq_set_sqe_tail (q : SqQueue) (v : Z) : SqQueue :=
  {| sq_khead := sq_khead q; sq_ktail := sq_ktail q;
     sq_kring_mask := sq_kring_mask q; sq_kring_entries := sq_kring_entries q;
     sq_kflags := sq_kflags q; sq_kdropped := sq_kdropped q; sqes := sqes q;
     sq_khead_shadow := sq_khead_shadow q; sq_ktail_shadow := sq_ktail_shadow q;
     sqe_head := sqe_head q; sqe_tail := v |}.

Definition sq_set_sqes (q : SqQueue) (s : Z -> SqEntry) : SqQueue :=
  {| sq_khead := sq_khead q; sq_ktail := sq_ktail q;
     sq_kring_mask := sq_kring_mask q; sq_kring_entries := sq_kring_entries q;
     sq_kflags := sq_kflags q; sq_kdropped := sq_kdropped q; sqes := s;
     sq_khead_shadow := sq_khead_shadow q; sq_ktail_shadow := sq_ktail_shadow q;
     sqe_head := sqe_head q; sqe_tail := sqe_tail q |}.

(** The kernel moving the shared head (it consumed submissions). *)
Definition sq_set_khead (q : SqQueue) (v : Z) : SqQueue :=
  {| sq_khead := v; sq_ktail := sq_ktail q;
     sq_kring_mask := sq_kring_mask q; sq_kring_entries := sq_kring_entries q;
     sq_kflags := sq_kflags q; sq_kdropped := sq_kdropped q; sqes := sqes q;
     sq_khead_shadow := sq_khead_shadow q; sq_ktail_shadow := sq_ktail_shadow q;
     sqe_head := sqe_head q; sqe_tail := sqe_tail q |}.

(** The kernel writing the SQ flags and dropped words. *)
Definition sq_set_kernel_words (q : SqQueue) (flags dropped : Z) : SqQueue :=
  {| sq_khead := sq_khead q; sq_ktail := sq_ktail q;
     sq_kring_mask := sq_kring_mask q; sq_kring_entries := sq_kring_entries q;
     sq_kflags := flags; sq_kdropped := dropped; sqes := sqes q;
     sq_khead_shadow := sq_khead_shadow q; sq_ktail_shadow := sq_ktail_shadow q;
     sqe_head := sqe_head q; sqe_tail := sqe_tail q |}.

Definition update_slot (s : Z -> SqEntry) (i : Z) (e : SqEntry) : Z -> SqEntry :=
  fun j => if j =? i then e else s j.

(** The shared words of the SQ ring mapping that [Queue::new] reads. *)
Record SqRingMem := {
  m_head : Z;
  m_tail : Z;
  m_ring_mask : Z;
  m_ring_entries : Z;
  m_flags : Z;
  m_dropped : Z
}.

(** [Queue::new] (the identity permutation it writes into the indirection
    array is not part of this model: the claims below do not read it). *)
Definition sq_new (m : SqRingMem) (s : Z -> SqEntry) : SqQueue :=
  {| sq_khead := m_head m; sq_ktail := m_tail m;
     sq_kring_mask := m_ring_mask m; sq_kring_entries := m_ring_entries m;
     sq_kflags := m_flags m; sq_kdropped := m_dropped m; sqes := s;
     sq_khead_shadow := m_head m; sq_ktail_shadow := m_tail m;
     sqe_head := 0; sqe_tail := 0 |}.

(** [vacate_entry]: the slot index handed out (if any) and the new state. *)
Definition vacate_entry (q : SqQueue) : option Z * SqQueue :=
  let take (q : SqQueue) :=
    let count := Z.land (sqe_tail q) (sq_kring_mask q) in
    (Some count, sq_set_sqe_tail q (wrapping_add (sqe_tail q) 1)) in
  if wrapping_sub (sqe_tail q) (sq_khead_shadow q) =? sq_kring_entries q then
    let q1 := sq_set_khead_shadow q (sq_khead q) in
    if wrapping_sub (sqe_tail q1) (sq_khead_shadow q1) =? sq_kring_entries q1
    then (None, q1)
    else take q1
  else take q.

(** The header [prep_rw] writes into a reserved slot. *)
Definition rw_entry (op fd0 addr len0 offset : Z) : SqEntry :=
  {| opcode := op; sqe_flags := 0; ioprio := 0; fd := fd0; off_addr2 := offset;
     addr_splice_off_in := addr; len := len0; op_flags := 0; sqe_user_data := 0;
     buf_index_group := 0; personality := 0; splice_fd_in := 0;
     pad2_0 := 0; pad2_1 := 0 |}.

Definition prep_rw (q : SqQueue) (op fd0 addr len0 offset : Z) : option Z * SqQueue :=
  match vacate_entry q with
  | (Some i, q1) => (Some i, sq_set_sqes q1 (update_slot (sqes q1) i (rw_entry op fd0 addr len0 offset)))
  | (None, q1) => (None, q1)
  end.

Definition flush (q : SqQueue) : Z * SqQueue :=
  let q1 :=
    if negb (sqe_head q =? sqe_tail q) then
      let to_submit := wrapping_sub (sqe_tail q) (sqe_head q) in
      let shadow := wrapping_add (sq_ktail_shadow q) to_submit in
      {| sq_khead := sq_khead q; sq_ktail := shadow;
         sq_kring_mask := sq_kring_mask q; sq_kring_entries := sq_kring_entries q;
         sq_kflags := sq_kflags q; sq_kdropped := sq_kdropped q; sqes := sqes q;
         sq_khead_shadow := sq_khead_shadow q; sq_ktail_shadow := shadow;
         sqe_head := sqe_tail q; sqe_tail := sqe_tail q |}
    else q in
  let q2 := sq_set_khead_shadow q1 (sq_khead q1) in
  (wrapping_sub (sq_ktail_shadow q2) (sq_khead_shadow q2), q2).

Definition NEED_WAKEUP : Z := Z.shiftl 1 0.

Definition need_wakeup (q : SqQueue) : bool :=
  negb (Z.land (sq_kflags q) NEED_WAKEUP =? 0).

(** [u32::reverse_bits]: bit [i] moves to bit [31 - i]. *)
Definition reverse_bits32 (x : Z) : Z :=
  fold_right (fun i acc => if Z.testbit x (Z.of_nat i) then Z.lor acc (Z.shiftl 1 (31 - Z.of_nat i)) else acc)
    0 (seq 0 32).

(** [Entry::set_poll_events]; [big_endian] is [cfg!(target_endian = "big")]. *)
Definition set_poll_events (big_endian : bool) (e : SqEntry) (poll_events : Z) : SqEntry :=
  {| opcode := opcode e; sqe_flags := sqe_flags e; ioprio := ioprio e; fd := fd e;
     off_addr2 := off_addr2 e; addr_splice_off_in := addr_splice_off_in e; len := len e;
     op_flags := if big_endian then reverse_bits32 poll_events else poll_events;
     sqe_user_data := sqe_user_data e; buf_index_group := buf_index_group e;
     personality := personality e; splice_fd_in := splice_fd_in e;
     pad2_0 := pad2_0 e; pad2_1 := pad2_1 e |}.

(** [Code::PollAdd as u8] *)
Definition Code_PollAdd : Z := 6.

(** [Uring::prep_poll_add] on the SQ: the [u16] mask is widened to the
    [u32] argument of [set_poll_events]; [ptr::null()] is address 0. *)
Definition prep_poll_add (big_endian : bool) (q : SqQueue) (fd0 poll_mask : Z) : bool * SqQueue :=
  match prep_rw q Code_PollAdd fd0 0 0 0 with
  | (Some i, q1) =>
      (true, sq_set_sqes q1 (update_slot (sqes q1) i (set_poll_events big_endian (sqes q1 i) poll_mask)))
  | (None, q1) => (false, q1)
  end.

(** Byte order swap of a 16-bit value and of a 32-bit value. *)
Definition swap_bytes16 (x : Z) : Z :=
  Z.lor (Z.shiftl (Z.land x 255) 8) (Z.land (Z.shiftr x 8) 255).
Definition swap_bytes32 (x : Z) : Z :=
  Z.lor (Z.lor (Z.shiftl (Z.land x 255) 24) (Z.shiftl (Z.land (Z.shiftr x 8) 255) 16))
        (Z.lor (Z.shiftl (Z.land (Z.shiftr x 16) 255) 8) (Z.land (Z.shiftr x 24) 255)).

(** ** Completion queue ([src/cq.rs]) *)

(** [struct io_uring_cqe] *)
Record CqEntry := {
  cqe_user_data : Z;
  cqe_res : Z;
  cqe_flags : Z
}.

(** [cq::Queue]; [cq_kflags] is [None] when the parameter block reported a
    zero flags offset, otherwise the contents of the shared flags word. *)
Record CqQueue := {
  cq_khead : Z;
  cq_ktail : Z;
  cq_kring_mask : Z;
  cq_kring_entries : Z;
  cq_kflags : option Z;
  cq_koverflow : Z;
  cqes : Z -> CqEntry;
  cq_khead_shadow : Z;
  cq_ktail_shadow : Z
}.

Definition cq_set_shadows (q : CqQueue) (khead hs ts : Z) : CqQueue :=
  {| cq_khead := khead; cq_ktail := cq_ktail q; cq_kring_mask := cq_kring_mask q;
     cq_kring_entries := cq_kring_entries q; cq_kflags := cq_kflags q;
     cq_koverflow := cq_koverflow q; cqes := cqes q;
     cq_khead_shadow := hs; cq_ktail_shadow := ts |}.

Definition cq_set_kflags (q : CqQueue) (f : option Z) : CqQueue :=
  {| cq_khead := cq_khead q; cq_ktail := cq_ktail q; cq_kring_mask := cq_kring_mask q;
     cq_kring_entries := cq_kring_entries q; cq_kflags := f;
     cq_koverflow := cq_koverflow q; cqes := cqes q;
     cq_khead_shadow := cq_khead_shadow q; cq_ktail_shadow := cq_ktail_shadow q |}.

(** [Queue::new] reads the flags word only when its offset is non-zero. *)
Definition kflags_of_offset (flags_off flags_word : Z) : option Z :=
  if flags_off =? 0 then None else Some flags_word.

Definition UDATA_TIMEOUT : Z := 2 ^ 64 - 1.
Definition F_EVENTFD_DISABLED : Z := Z.shiftl 1 0.

Definition advance (q : CqQueue) (n : Z) : CqQueue :=
  if 0 <? n then
    let hs := wrapping_add (cq_khead_shadow q) n in
    cq_set_shadows q hs hs (cq_ktail_shadow q)
  else q.

Definition eventfd_enabled (q : CqQueue) : bool :=
  match cq_kflags q with
  | Some kflags => Z.land kflags F_EVENTFD_DISABLED =? 0
  | None => true
  end.

Definition toggle_eventfd (q : CqQueue) (enabled : bool) : result unit * CqQueue :=
  if Bool.eqb enabled (eventfd_enabled q) then (Ok tt, q)
  else
    match cq_kflags q with
    | Some flags =>
        let flags' := if enabled then Z.land flags (u32_not F_EVENTFD_DISABLED)
                      else Z.lor flags F_EVENTFD_DISABLED in
        (Ok tt, cq_set_kflags q (Some flags'))
    | None => (Err EOPNOTSUPP, q)
    end.

(** [peek_cqe]: the loop runs on [fuel]; [None] means the fuel ran out.
    The entry is returned by value (the source returns a reference into the
    ring, at slot [khead_shadow & mask] of the final state). *)
Fixpoint peek_cqe (fuel : nat) (errno : Z) (q : CqQueue) : option (result (option CqEntry) * CqQueue) :=
  match fuel with
  | O => None
  | S fuel' =>
      let q1 := if cq_khead_shadow q =? cq_ktail_shadow q
                then cq_set_shadows q (cq_khead q) (cq_khead_shadow q) (cq_ktail q)
                else q in
      if cq_khead_shadow q1 =? cq_ktail_shadow q1 then Some (Ok None, q1)
      else
        let cqe := cqes q1 (Z.land (cq_khead_shadow q1) (cq_kring_mask q1)) in
        if cqe_user_data cqe =? UDATA_TIMEOUT then
          let err := cqe_res cqe in
          let q2 := advance q1 1 in
          match cvt errno err with
          | Err e => Some (Err e, q2)
          | Ok _ => peek_cqe fuel' errno q2
          end
        else Some (Ok (Some cqe), q1)
  end.

(** ** Ring driver ([src/uring.rs]) *)

(** [Setup] flag bits (src/params.rs) and [Enter] flag bits. *)
Definition IOPOLL : Z := Z.shiftl 1 0.
Definition SQPOLL : Z := Z.shiftl 1 1.
Definition GETEVENTS : Z := Z.shiftl 1 0.
Definition SQ_WAKEUP : Z := Z.shiftl 1 1.

Definition contains (flags bit : Z) : bool := Z.land flags bit =? bit.

Record Uring := {
  ring_sq : SqQueue;
  ring_cq : CqQueue;
  ring_flags : Z;
  ring_fd : Z
}.

(** [need_enter]: the answer and the enter-flags after the call. *)
Definition need_enter (u : Uring) (submitted : Z) (flags : Z) : bool * Z :=
  if negb (contains (ring_flags u) SQPOLL) && (0 <? submitted) then (true, flags)
  else if need_wakeup (ring_sq u) then (true, Z.lor flags SQ_WAKEUP)
  else (false, flags).

(** The world [get_cqe] runs in: the ring, the thread-local [errno] and the
    number of [io_uring_enter] calls made so far. *)
Record World := {
  w_ring : Uring;
  w_errno : Z;
  w_enters : nat
}.

Definition w_set_cq (w : World) (q : CqQueue) : World :=
  {| w_ring := {| ring_sq := ring_sq (w_ring w); ring_cq := q;
                  ring_flags := ring_flags (w_ring w); ring_fd := ring_fd (w_ring w) |};
     w_errno := w_errno w; w_enters := w_enters w |}.

(** Outcome of one pass of the [get_cqe] loop body. *)
Inductive iter_outcome :=
| Done : result CqEntry -> World -> iter_outcome
| Continue : World -> Z -> Z -> Z -> iter_outcome.  (* world, submit, wait_nr, ret *)

Section GetCqe.
(** The kernel's side of [io_uring_enter]: given the world and the
    arguments ([to_submit], [min_complete], [flags], signal mask) it returns
    the syscall's result (already converted by [cvt]) and the world it
    leaves behind (new completions, a new [errno], ...). *)
Variable kernel_enter : World -> Z -> Z -> Z -> option Z -> result Z * World.
(** Fuel for each [peek_cqe] call. *)
Variable peek_fuel : nat.

(** [penter]: both variants issue [io_uring_enter]; one more call is counted. *)
Definition penter (w : World) (to_submit min_complete flags : Z) (sig : option Z) : result Z * World :=
  let w' := {| w_ring := w_ring w; w_errno := w_errno w; w_enters := S (w_enters w) |} in
  kernel_enter w' to_submit min_complete flags sig.

(** The second half of the loop body, once [peek_cqe] has produced
    [peeked] and [wait_nr] has been decremented: compute the enter-flags,
    enter the kernel if needed, update the counters, and return the copied
    entry after advancing the head. *)
Definition get_cqe_rest (w1 : World) (submit ret : Z) (sig : option Z)
    (peeked : option CqEntry) (wait_nr : Z) : iter_outcome :=
  let flags := if 0 <? wait_nr then Z.lor 0 GETEVENTS else 0 in
  let flags := if 0 <? submit then snd (need_enter (w_ring w1) submit flags) else flags in
  let r :=
    if (0 <? wait_nr) || (0 <? submit) then penter w1 submit wait_nr flags sig
    else (Ok ret, w1) in
  match r with
  | (Err e, w2) => Done (Err e) w2
  | (Ok ret, w2) =>
      let '(submit, wait_nr) :=
        if ret =? submit then
          (0, if negb (contains (ring_flags (w_ring w2)) IOPOLL) then 0 else wait_nr)
        else (wrapping_sub submit ret, wait_nr) in  (* [submit -= ret] *)
      match peeked with
      | Some cqe => Done (Ok cqe) (w_set_cq w2 (advance (ring_cq (w_ring w2)) 1))
      | None => Continue w2 submit wait_nr ret
      end
  end.

Definition get_cqe_iter (w : World) (submit to_wait wait_nr ret : Z) (sig : option Z) : option iter_outcome :=
  match peek_cqe peek_fuel (w_errno w) (ring_cq (w_ring w)) with
  | None => None
  | Some (Err e, q) => Some (Done (Err e) (w_set_cq w q))
  | Some (Ok pk, q) =>
      let w1 := w_set_cq w q in
      match pk with
      | Some cqe => Some (get_cqe_rest w1 submit ret sig (Some cqe) (if 0 <? wait_nr then wait_nr - 1 else wait_nr))
      | None =>
          if (to_wait =? 0) && (submit =? 0) then Some (Done (Err EAGAIN) w1)
          else Some (get_cqe_rest w1 submit ret sig None wait_nr)
      end
  end.

Fixpoint get_cqe_loop (fuel : nat) (w : World) (submit to_wait wait_nr ret : Z) (sig : option Z)
  : option (result CqEntry * World) :=
  match fuel with
  | O => None
  | S fuel' =>
      match get_cqe_iter w submit to_wait wait_nr ret sig with
      | None => None
      | Some (Done r w') => Some (r, w')
      | Some (Continue w' submit' wait_nr' ret') => get_cqe_loop fuel' w' submit' to_wait wait_nr' ret' sig
      end
  end.

Definition get_cqe (fuel : nat) (w : World) (submit to_wait : Z) (sig : option Z)
  : option (result CqEntry * World) :=
  get_cqe_loop fuel w submit to_wait to_wait 0 sig.

Definition wait_cqe_nr (fuel : nat) (w : World) (wait_nr : Z) : option (result CqEntry * World) :=
  get_cqe fuel w 0 wait_nr None.
End GetCqe.

(** ** Parameters and builder ([src/params.rs]) *)

(** The part of [struct io_uring_params] the builder writes; the rest of
    the block is zeroed and filled by the kernel. *)
Record UringParams := {
  p_sq_entries : Z;
  p_cq_entries : Z;
  p_flags : Z;
  p_sq_thread_cpu : Z;
  p_sq_thread_idle : Z;
  p_features : Z;
  p_wq_fd : Z
}.

Record UringBuilder := {
  b_entries : Z;
  b_cq_entries : Z;
  b_flags : Z;
  b_sq_thread_cpu : Z;
  b_sq_thread_idle : Z;
  b_wq_fd : Z
}.

Definition SQ_AFF : Z := Z.shiftl 1 2.
Definition CQSIZE : Z := Z.shiftl 1 3.
Definition CLAMP : Z := Z.shiftl 1 4.
Definition ATTACH_WQ : Z := Z.shiftl 1 5.

Definition UringBuilder_new (entries : Z) : UringBuilder :=
  {| b_entries := entries; b_cq_entries := 0; b_flags := 0;
     b_sq_thread_cpu := 0; b_sq_thread_idle := 0; b_wq_fd := 0 |}.

(** [Uring::entries] *)
Definition Uring_entries (entries : Z) : UringBuilder := UringBuilder_new entries.

Definition with_flags (b : UringBuilder) (bit : Z) : UringBuilder :=
  {| b_entries := b_entries b; b_cq_entries := b_cq_entries b; b_flags := Z.lor (b_flags b) bit;
     b_sq_thread_cpu := b_sq_thread_cpu b; b_sq_thread_idle := b_sq_thread_idle b;
     b_wq_fd := b_wq_fd b |}.

Definition iopoll (b : UringBuilder) : UringBuilder := with_flags b IOPOLL.
Definition sqpoll (b : UringBuilder) : UringBuilder := with_flags b SQPOLL.
Definition sqpoll_idle (b : UringBuilder) (idle : Z) : UringBuilder :=
  let b := sqpoll b in
  {| b_entries := b_entries b; b_cq_entries := b_cq_entries b; b_flags := b_flags b;
     b_sq_thread_cpu := b_sq_thread_cpu b; b_sq_thread_idle := idle; b_wq_fd := b_wq_fd b |}.
Definition sqpoll_cpu (b : UringBuilder) (cpu : Z) : UringBuilder :=
  let b := with_flags (sqpoll b) SQ_AFF in
  {| b_entries := b_entries b; b_cq_entries := b_cq_entries b; b_flags := b_flags b;
     b_sq_thread_cpu := cpu; b_sq_thread_idle := b_sq_thread_idle b; b_wq_fd := b_wq_fd b |}.
Definition cqsize (b : UringBuilder) (cq_entries : Z) : UringBuilder :=
  let b := with_flags b CQSIZE in
  {| b_entries := b_entries b; b_cq_entries := cq_entries; b_flags := b_flags b;
     b_sq_thread_cpu := b_sq_thread_cpu b; b_sq_thread_idle := b_sq_thread_idle b;
     b_wq_fd := b_wq_fd b |}.
Definition clamp (b : UringBuilder) : UringBuilder := with_flags b CLAMP.
Definition attach_wq (b : UringBuilder) (wq_fd : Z) : UringBuilder :=
  let b := with_flags b ATTACH_WQ in
  {| b_entries := b_entries b; b_cq_entries := b_cq_entries b; b_flags := b_flags b;
     b_sq_thread_cpu := b_sq_thread_cpu b; b_sq_thread_idle := b_sq_thread_idle b;
     b_wq_fd := wq_fd |}.

(** A builder option as the caller applies it. *)
Inductive Knob :=
| KIopoll | KSqpoll | KSqpollIdle (idle : Z) | KSqpollCpu (cpu : Z)
| KCqsize (n : Z) | KClamp | KAttachWq (fd : Z).

Definition apply_knob (b : UringBuilder) (k : Knob) : UringBuilder :=
  match k with
  | KIopoll => iopoll b
  | KSqpoll => sqpoll b
  | KSqpollIdle i => sqpoll_idle b i
  | KSqpollCpu c => sqpoll_cpu b c
  | KCqsize n => cqsize b n
  | KClamp => clamp b
  | KAttachWq f => attach_wq b f
  end.

Definition apply_knobs (b : UringBuilder) (ks : list Knob) : UringBuilder :=
  fold_left apply_knob ks b.

Definition params (b : UringBuilder) : UringParams :=
  {| p_sq_entries := 0; p_cq_entries := b_cq_entries b; p_flags := b_flags b;
     p_sq_thread_cpu := b_sq_thread_cpu b; p_sq_thread_idle := b_sq_thread_idle b;
     p_features := 0; p_wq_fd := b_wq_fd b |}.

(** [Uring::new] *)
Definition Uring_new (sq : SqQueue) (cq : CqQueue) (flags fd0 : Z) : Uring :=
  {| ring_sq := sq; ring_cq := cq; ring_flags := flags; ring_fd := fd0 |}.

(** [UringBuilder::try_build]: [sys_setup] is the kernel's
    [io_uring_setup(entries, &mut params)], returning the ring fd and the
    parameter block as the kernel filled it; [mmap_rings] is
    [params.mmap(&fd)], which maps the rings from that block and fails with
    its own error or yields the two queues.  The ring is then built by
    [Uring::new] from the queues, [params.flags()] and the fd.  (On an error
    after setup the [Fd] is dropped, which closes it; the file table is not
    modelled.) *)
Definition try_build (sys_setup : Z -> UringParams -> result (Z * UringParams))
    (mmap_rings : Z -> UringParams -> result (SqQueue * CqQueue)) (b : UringBuilder)
  : result Uring :=
  let p := params b in
  match sys_setup (b_entries b) p with
  | Err e => Err e
  | Ok (fd0, p') =>
      match mmap_rings fd0 p' with
      | Err e => Err e
      | Ok (sq, cq) => Ok (Uring_new sq cq (p_flags p') fd0)
      end
  end.

(** The older builder of [src/lib.rs]: its [entries] setter rounds up.
    That file declares only [mod params] and [mod sys] and its
    [IoUringBuilder] is a type of its own ([usize] entries, its own
    [try_build]); [Uring::entries] builds a [params::UringBuilder], so this
    rounding is not on the path of [Uring::entries(n).try_build()]. *)
Definition next_power_of_two (n : Z) : Z :=
  if n <=? 1 then 1 else 2 ^ Z.log2_up n.

(** ** Further code of the cited files *)

(** [cq::Entry::buffer_id]: [F_BUFFER] is bit 0, the id sits above bit
    [BUFFER_SHIFT = 16]; [as u16] keeps the low 16 bits of the shifted word. *)
Definition F_BUFFER : Z := Z.shiftl 1 0.
Definition BUFFER_SHIFT : Z := 16.

Definition buffer_id (e : CqEntry) : option Z :=
  if negb (Z.land (cqe_flags e) F_BUFFER =? 0)
  then Some (Z.land (Z.shiftr (cqe_flags e) BUFFER_SHIFT) (Z.ones 16))
  else None.

(** The loop of [sq::Queue::new] that fills the indirection array:
    [for head in 0..kring_entries { array[i & kring_mask] = head;
    i = i.wrapping_add(1) }], [i] starting at the tail shadow. *)
Fixpoint sq_fill_array (n : nat) (array : Z -> Z) (kring_mask head i : Z) : Z -> Z :=
  match n with
  | O => array
  | S n' =>
      sq_fill_array n' (fun j => if j =? Z.land i kring_mask then head else array j)
        kring_mask (head + 1) (wrapping_add i 1)
  end.

(** The indirection array after [Queue::new] over the ring mapping [m]
    whose array held [array] before. *)
Definition sq_new_array (m : SqRingMem) (array : Z -> Z) : Z -> Z :=
  sq_fill_array (Z.to_nat (m_ring_entries m)) array (m_ring_mask m) 0 (m_tail m).

Definition w_set_sq (w : World) (q : SqQueue) : World :=
  {| w_ring := {| ring_sq := q; ring_cq := ring_cq (w_ring w);
                  ring_flags := ring_flags (w_ring w); ring_fd := ring_fd (w_ring w) |};
     w_errno := w_errno w; w_enters := w_enters w |}.

Section SubmitAndWait.
Variable kernel_enter : World -> Z -> Z -> Z -> option Z -> result Z * World.

(** [Uring::enter]: [io_uring_enter] without a signal mask. *)
Definition enter (w : World) (to_submit min_complete flags : Z) : result Z * World :=
  penter kernel_enter w to_submit min_complete flags None.

(** [Uring::submit_and_wait]: flush, then enter the kernel only if
    [need_enter] says so or completions are awaited. *)
Definition submit_and_wait (w : World) (wait_nr : Z) : result Z * World :=
  let '(submitted, sq') := flush (ring_sq (w_ring w)) in
  let w1 := w_set_sq w sq' in
  let '(ne, flags) := need_enter (w_ring w1) submitted 0 in
  if ne || (0 <? wait_nr) then
    let flags := if (0 <? wait_nr) || contains (ring_flags (w_ring w1)) IOPOLL
                 then Z.lor flags GETEVENTS else flags in
    enter w1 submitted wait_nr flags
  else (Ok submitted, w1).

(** [Uring::submit] *)
Definition submit (w : World) : result Z * World := submit_and_wait w 0.
End SubmitAndWait.

(** [Uring::wait_cqe] *)
Definition wait_cqe (kernel_enter : World -> Z -> Z -> Z -> option Z -> result Z * World)
    (peek_fuel fuel : nat) (w : World) : option (result CqEntry * World) :=
  get_cqe kernel_enter peek_fuel fuel w 0 1 None.

(** The setup flag bits each builder option sets. *)
Definition knob_bits (k : Knob) : Z :=
  match k with
  | KIopoll => IOPOLL
  | KSqpoll | KSqpollIdle _ => SQPOLL
  | KSqpollCpu _ => Z.lor SQPOLL SQ_AFF
  | KCqsize _ => CQSIZE
  | KClamp => CLAMP
  | KAttachWq _ => ATTACH_WQ
  end.

(** ** Runs of the submission queue *)

(** [n] consecutive reservations, recording which succeeded. *)
Fixpoint vacate_n (n : nat) (q : SqQueue) : list bool * SqQueue :=
  match n with
  | O => ([], q)
  | S n' =>
      let '(r, q1) := vacate_entry q in
      let '(rs, q2) := vacate_n n' q1 in
      (match r with Some _ => true | None => false end :: rs, q2)
  end.

(** One step of the submission side: the library reserving and shaping an
    entry, writing an op-specific field of a slot, flushing, or the kernel
    consuming entries (moving the shared head) and writing its flags and
    dropped words.  The kernel never writes the SQ tail. *)
Inductive sq_step : SqQueue -> SqQueue -> Prop :=
| step_prep_rw : forall q op fd0 addr len0 offset,
    sq_step q (snd (prep_rw q op fd0 addr len0 offset))
| step_write_slot : forall q i e,
    sq_step q (sq_set_sqes q (update_slot (sqes q) i e))
| step_flush : forall q, sq_step q (snd (flush q))
| step_kernel_head : forall q h, 0 <= h < 2 ^ 32 -> sq_step q (sq_set_khead q h)
| step_kernel_words : forall q f d, sq_step q (sq_set_kernel_words q f d).

(** States reachable from [Queue::new] over the ring mapping [m]. *)
Definition sq_reachable (m : SqRingMem) (s : Z -> SqEntry) (q : SqQueue) : Prop :=
  clos_refl_trans_1n _ sq_step (sq_new m s) q.

(** The same steps with a kernel that consumes only what was published: it
    moves the shared head forward by at most [ktail - khead] (wrapping). *)
Inductive sq_kstep : SqQueue -> SqQueue -> Prop :=
| kstep_prep_rw : forall q op fd0 addr len0 offset,
    sq_kstep q (snd (prep_rw q op fd0 addr len0 offset))
| kstep_write_slot : forall q i e,
    sq_kstep q (sq_set_sqes q (update_slot (sqes q) i e))
| kstep_flush : forall q, sq_kstep q (snd (flush q))
| kstep_consume : forall q d, 0 <= d <= wrapping_sub (sq_ktail q) (sq_khead q) ->
    sq_kstep q (sq_set_khead q (wrapping_add (sq_khead q) d))
| kstep_kernel_words : forall q f d, sq_kstep q (sq_set_kernel_words q f d).

Definition sq_kreachable (m : SqRingMem) (s : Z -> SqEntry) (q : SqQueue) : Prop :=
  clos_refl_trans_1n _ sq_kstep (sq_new m s) q.

(** On a ring whose kernel tail started at 0, the shared tail, the tail
    shadow and [sqe_head] agree, and the private counters are 32-bit. *)
Definition sq_tail_inv (q : SqQueue) : Prop :=
  sq_ktail q = sq_ktail_shadow q /\ sq_ktail_shadow q = sqe_head q /\
  0 <= sqe_head q < 2 ^ 32 /\ 0 <= sqe_tail q < 2 ^ 32.

(** Occupancy of the submission ring: from the head shadow, the kernel head
    is [d1] further, the shared tail [d2] further and [sqe_tail] [d3]
    further (all wrapping), within [E] entries. *)
Definition sq_occ_inv (E : Z) (q : SqQueue) : Prop :=
  sq_tail_inv q /\ sq_kring_entries q = E /\ 0 <= E < 2 ^ 32 /\
  0 <= sq_khead_shadow q < 2 ^ 32 /\
  exists d1 d2 d3, 0 <= d1 /\ 0 <= d2 /\ 0 <= d3 /\ d1 + d2 + d3 <= E /\
    sq_khead q = wrap32 (sq_khead_shadow q + d1) /\
    sq_ktail q = wrap32 (sq_khead_shadow q + d1 + d2) /\
    sqe_tail q = wrap32 (sq_khead_shadow q + d1 + d2 + d3).

(** ** Concrete states used by the witnesses and counterexamples *)

Definition zero_sqe : SqEntry := rw_entry 0 0 0 0 0.

(** A four-slot submission ring, with [n] entries reserved and the kernel
    head at [h]. *)
Definition sample_sq (n h : Z) : SqQueue :=
  {| sq_khead := h; sq_ktail := 0; sq_kring_mask := 3; sq_kring_entries := 4;
     sq_kflags := 0; sq_kdropped := 0; sqes := fun _ => zero_sqe;
     sq_khead_shadow := 0; sq_ktail_shadow := 0; sqe_head := 0; sqe_tail := n |}.

Definition fresh_sq_mem : SqRingMem :=
  {| m_head := 0; m_tail := 0; m_ring_mask := 3; m_ring_entries := 4;
     m_flags := 0; m_dropped := 0 |}.

(** A four-slot completion ring holding the entries [es] from slot 0 on. *)
Definition sample_cq (kflags : option Z) (es : list CqEntry) : CqQueue :=
  {| cq_khead := 0; cq_ktail := Z.of_nat (List.length es); cq_kring_mask := 3;
     cq_kring_entries := 4; cq_kflags := kflags; cq_koverflow := 0;
     cqes := fun i => nth (Z.to_nat i) es {| cqe_user_data := 0; cqe_res := 0; cqe_flags := 0 |};
     cq_khead_shadow := 0; cq_ktail_shadow := 0 |}.

Definition sample_ring (flags sq_flags : Z) (cq : CqQueue) : Uring :=
  {| ring_sq := sq_set_kernel_words (sample_sq 0 0) sq_flags 0; ring_cq := cq;
     ring_flags := flags; ring_fd := 3 |}.

Definition sample_world (cq : CqQueue) (errno : Z) : World :=
  {| w_ring := sample_ring 0 0 cq; w_errno := errno; w_enters := 0 |}.

(** A kernel whose [io_uring_enter] fails with [EAGAIN] (out of resources). *)
Definition kernel_busy (w : World) (_ _ _ : Z) (_ : option Z) : result Z * World :=
  (Err EAGAIN, w).

(** A setup syscall that reports the entry count it was given as the fd. *)
Definition setup_echo (entries : Z) (p : UringParams) : result (Z * UringParams) :=
  Ok (entries, p).

(** A mapping step that succeeds with an empty four-slot ring. *)
Definition mmap_sample (_ : Z) (_ : UringParams) : result (SqQueue * CqQueue) :=
  Ok (sample_sq 0 0, sample_cq None []).

(** A completion ring holding one ordinary entry at the head, published. *)
Definition e9 : CqEntry := {| cqe_user_data := 9; cqe_res := 0; cqe_flags := 0 |}.
Definition ready_world : World := sample_world (cq_set_shadows (sample_cq None [e9]) 0 0 1) 0.

(** A ring with setup flags [flags] whose submission queue is [sq]. *)
Definition sample_world_sq (flags : Z) (sq : SqQueue) : World :=
  {| w_ring := {| ring_sq := sq; ring_cq := sample_cq None []; ring_flags := flags; ring_fd := 3 |};
     w_errno := 0; w_enters := 0 |}.

(** A completion entry carrying the timeout sentinel and a non-negative result. *)
Definition sentinel_ok : CqEntry := {| cqe_user_data := UDATA_TIMEOUT; cqe_res := 0; cqe_flags := 0 |}.

(** ** Theorems *)

(** *** Syscall numbers *)

(** C1 (code_bug): the wrappers of [src/syscall.rs] and of [src/sys.rs] hand
    426 to the kernel for setup, 427 for enter and 425 for register, not the
    x86-64 numbers 425, 426 and 427 of [io_uring_setup], [io_uring_enter] and
    [io_uring_register]. *)
Theorem syscall_numbers_shifted :
  (forall e p, sc_nr (Syscall.io_uring_setup e p) = 426) /\
  (forall f a b c, sc_nr (Syscall.io_uring_enter f a b c) = 427) /\
  (forall f a b c d e, sc_nr (Syscall.io_uring_penter f a b c d e) = 427) /\
  (forall f o a n, sc_nr (Syscall.io_uring_register f o a n) = 425) /\
  (forall e p, sc_nr (Sys.io_uring_setup e p) = 426) /\
  (forall f a b c d e, sc_nr (Sys.io_uring_enter f a b c d e) = 427) /\
  (forall f o a n, sc_nr (Sys.io_uring_register f o a n) = 425).
Proof. repeat split; reflexivity. Qed.

(** *** need_enter *)

Lemma land_1_bit0 : forall x, Z.land x 1 = Z.b2z (Z.testbit x 0).
Proof.
  intro x. change 1 with (Z.ones 1). rewrite Z.land_ones by lia.
  rewrite Z.bit0_mod. reflexivity.
Qed.

(** [need_enter] on any ring: true exactly when (a) SQPOLL is absent and
    the submitted count is positive, or (b) bit 0 (NEED_WAKEUP) of the SQ
    flags word is set; when (a) holds the enter-flags are left unchanged,
    when (a) fails and (b) holds SQ_WAKEUP is or-ed into them, otherwise
    they are unchanged. *)
Lemma need_enter_spec : forall u submitted flags,
  let a := negb (contains (ring_flags u) SQPOLL) && (0 <? submitted) in
  let b := Z.testbit (sq_kflags (ring_sq u)) 0 in
  fst (need_enter u submitted flags) = a || b /\
  snd (need_enter u submitted flags) = (if a then flags else if b then Z.lor flags SQ_WAKEUP else flags).
Proof.
  intros u submitted flags a b.
  assert (Hw : need_wakeup (ring_sq u) = b).
  { unfold need_wakeup, NEED_WAKEUP, b. rewrite Z.shiftl_0_r, land_1_bit0.
    destruct (Z.testbit _ 0); reflexivity. }
  unfold need_enter. fold a. rewrite Hw.
  destruct a, b; split; reflexivity.
Qed.

(** C3: the kernel sets NEED_WAKEUP in the SQ flags word only from the
    poll thread of an SQPOLL ring.  On such rings, [need_enter] returns true
    exactly when (a) SQPOLL is absent and the submitted count is positive, or
    (b) the NEED_WAKEUP bit is set; in case (b) it or-s SQ_WAKEUP into the
    enter-flags, otherwise it leaves them unchanged. *)
Theorem need_enter_wakeup_only_sqpoll : forall u submitted flags,
  (Z.testbit (sq_kflags (ring_sq u)) 0 = true -> contains (ring_flags u) SQPOLL = true) ->
  let a := negb (contains (ring_flags u) SQPOLL) && (0 <? submitted) in
  let b := Z.testbit (sq_kflags (ring_sq u)) 0 in
  fst (need_enter u submitted flags) = a || b /\
  snd (need_enter u submitted flags) = (if b then Z.lor flags SQ_WAKEUP else flags).
Proof.
  intros u submitted flags Hk a b.
  destruct (need_enter_spec u submitted flags) as [H1 H2]. fold a b in H1, H2.
  split; [exact H1|]. rewrite H2.
  destruct b eqn:Eb; [|destruct a; reflexivity].
  specialize (Hk Eb). unfold a. rewrite Hk. reflexivity.
Qed.

Lemma need_enter_wakeup_only_sqpoll_witness :
  fst (need_enter (sample_ring SQPOLL NEED_WAKEUP (sample_cq None [])) 1 0) = true /\
  snd (need_enter (sample_ring SQPOLL NEED_WAKEUP (sample_cq None [])) 1 0) = Z.lor 0 SQ_WAKEUP.
Proof.
  destruct (need_enter_wakeup_only_sqpoll (sample_ring SQPOLL NEED_WAKEUP (sample_cq None [])) 1 0)
    as [H1 H2]; [intros _; reflexivity|].
  split; [rewrite H1; reflexivity | rewrite H2; reflexivity].
Defined.

(** *** Slot reservation *)

Lemma vacate_entry_index : forall q i q',
  vacate_entry q = (Some i, q') -> i = Z.land (sqe_tail q) (sq_kring_mask q).
Proof.
  intros q i q' H. unfold vacate_entry in H.
  destruct (wrapping_sub (sqe_tail q) (sq_khead_shadow q) =? sq_kring_entries q);
    [destruct (wrapping_sub _ _ =? _)|]; inversion H; reflexivity.
Qed.

(** *** Poll mask encoding *)

(** C6 (code_bug): on a little-endian host [prep_poll_add] stores the mask
    unchanged in the op-flags word of the reserved slot; on a big-endian host
    it stores [reverse_bits] of the widened mask, so [POLLIN] (1) becomes
    0x8000_0000 instead of its byte swap (0x0100 as 16 bits, 0x0100_0000 as
    32 bits). *)
Theorem prep_poll_add_big_endian_reverses_bits :
  (forall q fd0 mask,
     match prep_poll_add false q fd0 mask with
     | (true, q') => op_flags (sqes q' (Z.land (sqe_tail q) (sq_kring_mask q))) = mask
     | (false, _) => True
     end) /\
  (let '(ok, q') := prep_poll_add true (sample_sq 0 0) 3 1 in
   ok = true /\ op_flags (sqes q' 0) = 2 ^ 31 /\
   op_flags (sqes q' 0) <> swap_bytes16 1 /\ op_flags (sqes q' 0) <> swap_bytes32 1).
Proof.
  split.
  - intros q fd0 mask. unfold prep_poll_add, prep_rw.
    destruct (vacate_entry q) as [[i|] q1] eqn:Hv; [|exact I].
    apply vacate_entry_index in Hv. subst i.
    simpl. unfold update_slot. rewrite Z.eqb_refl. reflexivity.
  - vm_compute. repeat split; discriminate.
Qed.

(** *** Builder *)

Lemma apply_knobs_entries : forall ks b, b_entries (apply_knobs b ks) = b_entries b.
Proof.
  induction ks as [|k ks IH]; intro b; simpl; [reflexivity|].
  rewrite IH. destruct k; reflexivity.
Qed.

(** C7 (counterexample): [Uring::entries(3).try_build()] hands 3, not the
    power of two 4, to the setup syscall (the echoing setup returns the
    entry count it was given as the fd). *)
Lemma try_build_entries_not_rounded :
  match try_build setup_echo mmap_sample (Uring_entries 3) with
  | Ok u => ring_fd u = 3
  | Err _ => False
  end /\ next_power_of_two 3 = 4.
Proof. split; reflexivity. Qed.

(** C7 (amended): whatever options are applied to the builder,
    [try_build] calls the setup syscall with exactly the entry count given to
    [Uring::entries] and the parameter block built from the options (no
    rounding); a setup error is returned as is; otherwise the rings are mapped
    from the returned fd and block, a mapping error is returned as is, and on
    success the ring is built from the two queues, the setup flags of the
    returned block and the fd. *)
Theorem try_build_passes_entries_unchanged : forall sys_setup mmap_rings n ks,
  try_build sys_setup mmap_rings (apply_knobs (Uring_entries n) ks) =
  match sys_setup n (params (apply_knobs (Uring_entries n) ks)) with
  | Err e => Err e
  | Ok (fd0, p') =>
      match mmap_rings fd0 p' with
      | Err e => Err e
      | Ok (sq, cq) => Ok (Uring_new sq cq (p_flags p') fd0)
      end
  end.
Proof.
  intros sys_setup mmap_rings n ks. unfold try_build.
  rewrite apply_knobs_entries. reflexivity.
Qed.

(** *** Eventfd toggle *)

Lemma cq_set_kflags_same : forall q w, cq_kflags q = Some w -> cq_set_kflags q (Some w) = q.
Proof. intros [] w H; simpl in *; subst; reflexivity. Qed.

Lemma testbit_one : forall i, Z.testbit 1 i = (i =? 0).
Proof.
  intro i. destruct (Z.lt_trichotomy i 0) as [Hi|[Hi|Hi]].
  - rewrite Z.testbit_neg_r by lia. symmetry. apply Z.eqb_neq. lia.
  - subst. reflexivity.
  - change 1 with (2 ^ 0). rewrite Z.pow2_bits_eqb by lia.
    rewrite Z.eqb_sym. reflexivity.
Qed.

(** C8 (counterexample): with no CQ flags field, [toggle_eventfd true]
    succeeds instead of failing with EOPNOTSUPP (eventfd already counts as
    enabled, so the early return fires). *)
Lemma toggle_eventfd_on_without_flags_succeeds :
  toggle_eventfd (sample_cq None []) true = (Ok tt, sample_cq None []).
Proof. reflexivity. Qed.

(** C8 (amended): with no CQ flags field, [toggle_eventfd false] fails with
    EOPNOTSUPP and [toggle_eventfd true] succeeds, both leaving the queue
    unchanged; with a flags word present, [toggle_eventfd on] succeeds and
    leaves bit 0 (eventfd-disabled) equal to [not on], every other bit as it
    was. *)
Theorem toggle_eventfd_spec : forall q on,
  (cq_kflags q = None ->
   toggle_eventfd q on = ((if on then Ok tt else Err EOPNOTSUPP), q)) /\
  (forall w, cq_kflags q = Some w -> 0 <= w < 2 ^ 32 ->
   exists w', toggle_eventfd q on = (Ok tt, cq_set_kflags q (Some w')) /\
     Z.testbit w' 0 = negb on /\ (forall i, 0 < i -> Z.testbit w' i = Z.testbit w i)).
Proof.
  intros q on. split.
  - intro H. unfold toggle_eventfd, eventfd_enabled. rewrite H.
    destruct on; reflexivity.
  - intros w H Hw. unfold toggle_eventfd, eventfd_enabled. rewrite H.
    unfold F_EVENTFD_DISABLED. rewrite Z.shiftl_0_r, land_1_bit0.
    destruct (Z.testbit w 0) eqn:Hb0, on; simpl.
    + exists (Z.land w (u32_not 1)). split; [reflexivity|]. split.
      * rewrite <- Z.bit0_odd, Z.land_spec. unfold u32_not. rewrite Z.lxor_spec, Z.testbit_ones by lia.
        rewrite Hb0. reflexivity.
      * intros i Hi. rewrite Z.land_spec. unfold u32_not.
        rewrite Z.lxor_spec, Z.testbit_ones, testbit_one by lia.
        replace (i =? 0) with false by (symmetry; apply Z.eqb_neq; lia).
        destruct (Z.ltb_spec i 32).
        -- replace (0 <=? i) with true by (symmetry; apply Z.leb_le; lia).
           simpl. apply andb_true_r.
        -- rewrite andb_false_r. simpl. rewrite andb_false_r.
           rewrite <- (Z.mod_small w (2 ^ 32)) by lia.
           rewrite Z.mod_pow2_bits_high by lia. reflexivity.
    + exists w. rewrite cq_set_kflags_same by assumption.
      split; [reflexivity|]. split; [rewrite <- Z.bit0_odd; assumption|]. reflexivity.
    + exists w. rewrite cq_set_kflags_same by assumption.
      split; [reflexivity|]. split; [rewrite <- Z.bit0_odd; assumption|]. reflexivity.
    + exists (Z.lor w 1). split; [reflexivity|]. split.
      * rewrite <- Z.bit0_odd, Z.lor_spec, testbit_one. apply orb_true_r.
      * intros i Hi. rewrite Z.lor_spec, testbit_one.
        replace (i =? 0) with false by (symmetry; apply Z.eqb_neq; lia).
        apply orb_false_r.
Qed.

Lemma toggle_eventfd_spec_witness :
  toggle_eventfd (sample_cq None []) false = (Err EOPNOTSUPP, sample_cq None []) /\
  exists w', toggle_eventfd (sample_cq (Some 0) []) false = (Ok tt, cq_set_kflags (sample_cq (Some 0) []) (Some w')) /\
     Z.testbit w' 0 = true /\ (forall i, 0 < i -> Z.testbit w' i = Z.testbit 0 i).
Proof.
  split.
  - apply (proj1 (toggle_eventfd_spec (sample_cq None []) false)). reflexivity.
  - apply (proj2 (toggle_eventfd_spec (sample_cq (Some 0) []) false) 0); [reflexivity | lia].
Defined.

(** *** Ring-full detection *)

Lemma wrap32_range : forall x, 0 <= wrap32 x < 2 ^ 32.
Proof. intro x. unfold wrap32. apply Z.mod_pos_bound. lia. Qed.

Lemma wrap32_small : forall x, 0 <= x < 2 ^ 32 -> wrap32 x = x.
Proof. intros x Hx. unfold wrap32. apply Z.mod_small. exact Hx. Qed.

Lemma wrapping_sub_wrap_add : forall t k,
  0 <= k < 2 ^ 32 -> wrapping_sub (wrap32 (t + k)) t = k.
Proof.
  intros t k Hk. unfold wrapping_sub, wrap32.
  rewrite Zminus_mod_idemp_l. replace (t + k - t) with k by lia.
  apply Z.mod_small. exact Hk.
Qed.

Lemma wrapping_add_wrap_1 : forall x, wrapping_add (wrap32 x) 1 = wrap32 (x + 1).
Proof. intro x. unfold wrapping_add, wrap32. rewrite Zplus_mod_idemp_l. reflexivity. Qed.

(** The run of successful reservations below a ring of [E] entries whose
    kernel head stays at [t]. *)
Lemma vacate_n_below_full : forall n q t k,
  sq_khead_shadow q = t -> sq_khead q = t -> sqe_tail q = wrap32 (t + k) ->
  0 <= k -> k + Z.of_nat n <= sq_kring_entries q < 2 ^ 32 ->
  fst (vacate_n n q) = repeat true n /\
  sqe_tail (snd (vacate_n n q)) = wrap32 (t + k + Z.of_nat n) /\
  sq_khead_shadow (snd (vacate_n n q)) = t /\ sq_khead (snd (vacate_n n q)) = t /\
  sq_kring_entries (snd (vacate_n n q)) = sq_kring_entries q.
Proof.
  induction n as [|n IH]; intros q t k Hhs Hh Ht Hk Hn.
  - simpl. rewrite Z.add_0_r. auto.
  - simpl vacate_n.
    assert (Hv : vacate_entry q = (Some (Z.land (sqe_tail q) (sq_kring_mask q)),
                                    sq_set_sqe_tail q (wrapping_add (sqe_tail q) 1))).
    { unfold vacate_entry. rewrite Ht, Hhs, wrapping_sub_wrap_add by lia.
      replace (k =? sq_kring_entries q) with false by (symmetry; apply Z.eqb_neq; lia).
      rewrite <- Ht. reflexivity. }
    rewrite Hv.
    destruct (IH (sq_set_sqe_tail q (wrapping_add (sqe_tail q) 1)) t (k + 1))
      as [H1 [H2 [H3 [H4 H5]]]]; simpl; try lia.
    + rewrite Ht, wrapping_add_wrap_1. f_equal. lia.
    + destruct (vacate_n n _) as [rs q2]. simpl in *.
      rewrite H1. repeat split; try assumption.
      rewrite H2. f_equal. lia.
Qed.

Lemma vacate_n_app : forall n m q,
  vacate_n (n + m) q =
  (let '(rs, q1) := vacate_n n q in let '(rs2, q2) := vacate_n m q1 in (rs ++ rs2, q2)).
Proof.
  induction n as [|n IH]; intros m q.
  - simpl. destruct (vacate_n m q). reflexivity.
  - simpl. destruct (vacate_entry q) as [r q1]. rewrite IH.
    destruct (vacate_n n q1) as [rs q2]. destruct (vacate_n m q2) as [rs2 q3]. reflexivity.
Qed.

(** C4: a reservation fails exactly when [sqe_tail - head_shadow] (wrapping)
    equals [ring_entries] and, after re-loading the shared head into the
    shadow, the same test still holds; from an empty ring whose kernel head
    does not move, [ring_entries] consecutive reservations succeed and the
    next one fails. *)
Theorem vacate_entry_full_spec :
  (forall q,
     fst (vacate_entry q) = None <->
     wrapping_sub (sqe_tail q) (sq_khead_shadow q) = sq_kring_entries q /\
     wrapping_sub (sqe_tail q) (sq_khead q) = sq_kring_entries q) /\
  (forall q,
     0 <= sq_kring_entries q < 2 ^ 32 -> 0 <= sqe_tail q < 2 ^ 32 ->
     sq_khead_shadow q = sqe_tail q -> sq_khead q = sqe_tail q ->
     fst (vacate_n (Z.to_nat (sq_kring_entries q) + 1) q) =
     repeat true (Z.to_nat (sq_kring_entries q)) ++ [false]).
Proof.
  split.
  - intro q. unfold vacate_entry.
    destruct (Z.eqb_spec (wrapping_sub (sqe_tail q) (sq_khead_shadow q)) (sq_kring_entries q)) as [E1|E1];
      simpl.
    + destruct (Z.eqb_spec (wrapping_sub (sqe_tail q) (sq_khead q)) (sq_kring_entries q)) as [E2|E2];
        simpl; split; intuition discriminate.
    + split; [discriminate | intros [H _]; contradiction].
  - intros q HE Ht Hhs Hh.
    set (t := sqe_tail q) in *.
    set (E := sq_kring_entries q) in *.
    (* the first [E] reservations, then one more *)
    assert (Hrun : forall n, (n <= Z.to_nat E)%nat ->
              fst (vacate_n n q) = repeat true n /\
              sqe_tail (snd (vacate_n n q)) = wrap32 (t + Z.of_nat n) /\
              sq_khead_shadow (snd (vacate_n n q)) = t /\ sq_khead (snd (vacate_n n q)) = t /\
              sq_kring_entries (snd (vacate_n n q)) = E).
    { intros n Hn.
      destruct (vacate_n_below_full n q t 0) as [H1 [H2 H3]]; try lia.
      - unfold t. symmetry. rewrite Z.add_0_r. apply wrap32_small. lia.
      - rewrite Z.add_0_r in H2. auto. }
    replace (S (Z.to_nat E)) with (Z.to_nat E + 1)%nat by lia.
    rewrite vacate_n_app.
    destruct (Hrun (Z.to_nat E) (le_n _)) as [H1 [H2 [H3 [H4 H5]]]].
    destruct (vacate_n (Z.to_nat E) q) as [rs q1]. simpl in *.
    assert (Hv : vacate_entry q1 = (None, sq_set_khead_shadow q1 (sq_khead q1))).
    { unfold vacate_entry. rewrite H2, H3, H5, Z2Nat.id by lia.
      rewrite wrapping_sub_wrap_add by lia. rewrite (Z.eqb_refl E).
      cbn [sqe_tail sq_khead_shadow sq_kring_entries sq_set_khead_shadow].
      rewrite H2, H4, H5, Z2Nat.id, wrapping_sub_wrap_add by lia.
      rewrite (Z.eqb_refl E). reflexivity. }
    rewrite Hv, H1. reflexivity.
Qed.

Lemma vacate_entry_full_spec_witness :
  fst (vacate_n 5 (sample_sq 0 0)) = [true; true; true; true; false].
Proof.
  refine (proj2 vacate_entry_full_spec (sample_sq 0 0) _ _ _ _); simpl; try reflexivity; lia.
Defined.

(** *** Frame of a reservation *)

(** C10 (counterexample): a reservation can succeed and still change the
    head shadow: with [sqe_tail - head_shadow = ring_entries] but the kernel
    head one further, [prep_rw] refreshes the shadow from 0 to 1 and then
    hands out slot 0. *)
Lemma prep_rw_success_refreshes_head_shadow :
  let '(r, q') := prep_rw (sample_sq 4 1) 0 (-1) 0 0 0 in
  r = Some 0 /\ sq_khead_shadow (sample_sq 4 1) = 0 /\ sq_khead_shadow q' = 1 /\
  sqe_tail q' = 5.
Proof. vm_compute. repeat split. Qed.

(** C10 (amended): a failed reservation ([prep_rw], and so every
    preparation such as [prep_poll_add], reports failure) leaves the queue as
    it was except that the head shadow is re-loaded from the shared head.  A
    successful one hands out slot [sqe_tail & mask], increments [sqe_tail] by
    exactly one, may likewise have re-loaded the head shadow, leaves
    [sqe_head], the tail shadow and the shared head and tail words alone, and
    writes the header into that slot only. *)
Theorem prep_rw_frame : forall q op fd0 addr len0 offset,
  (match prep_rw q op fd0 addr len0 offset with
   | (None, q') => q' = sq_set_khead_shadow q (sq_khead q)
   | (Some i, q') =>
       i = Z.land (sqe_tail q) (sq_kring_mask q) /\
       sqe_tail q' = wrapping_add (sqe_tail q) 1 /\
       (sq_khead_shadow q' = sq_khead_shadow q \/ sq_khead_shadow q' = sq_khead q) /\
       sqe_head q' = sqe_head q /\ sq_ktail_shadow q' = sq_ktail_shadow q /\
       sq_ktail q' = sq_ktail q /\ sq_khead q' = sq_khead q /\
       sq_kring_entries q' = sq_kring_entries q /\ sq_kring_mask q' = sq_kring_mask q /\
       sqes q' i = rw_entry op fd0 addr len0 offset /\
       (forall j, j <> i -> sqes q' j = sqes q j)
   end) /\
  (forall big_endian mask,
   match prep_poll_add big_endian q fd0 mask with
   | (false, q') => q' = sq_set_khead_shadow q (sq_khead q)
   | (true, _) => True
   end).
Proof.
  intros q op fd0 addr len0 offset.
  assert (Hnone : forall q', vacate_entry q = (None, q') -> q' = sq_set_khead_shadow q (sq_khead q)).
  { intros q' H. unfold vacate_entry in H.
    destruct (_ =? sq_kring_entries q); [destruct (_ =? _)|]; inversion H; reflexivity. }
  split.
  - unfold prep_rw.
    destruct (vacate_entry q) as [[i|] q1] eqn:Hv; [|apply Hnone; reflexivity].
    pose proof (vacate_entry_index _ _ _ Hv) as Hi.
    unfold vacate_entry in Hv.
    destruct (_ =? sq_kring_entries q); [destruct (_ =? _)|]; inversion Hv; subst; clear Hv;
      cbn; unfold update_slot; rewrite Z.eqb_refl;
      (split; [reflexivity|]); (split; [reflexivity|]);
      (split; [auto|]);
      repeat split; intros j Hj; apply Z.eqb_neq in Hj; rewrite Hj; reflexivity.
  - intros big_endian mask. unfold prep_poll_add, prep_rw.
    destruct (vacate_entry q) as [[i|] q1] eqn:Hv; [exact I|]. apply Hnone. reflexivity.
Qed.

(** *** Publishing the tail *)


Lemma wrapping_add_sub_cancel : forall h t,
  0 <= t < 2 ^ 32 -> wrapping_add h (wrapping_sub t h) = t.
Proof.
  intros h t Ht. unfold wrapping_add, wrapping_sub, wrap32.
  rewrite Zplus_mod_idemp_r. replace (h + (t - h)) with t by lia.
  apply Z.mod_small. exact Ht.
Qed.

Lemma vacate_entry_tail_inv : forall q, sq_tail_inv q -> sq_tail_inv (snd (vacate_entry q)).
Proof.
  intros q (H1 & H2 & H3 & H4). unfold vacate_entry.
  destruct (_ =? sq_kring_entries q); [destruct (_ =? _)|]; cbn;
    unfold sq_tail_inv; cbn; repeat split; try lia; apply wrap32_range.
Qed.

Lemma sq_step_tail_inv : forall q q', sq_step q q' -> sq_tail_inv q -> sq_tail_inv q'.
Proof.
  intros q q' Hs Hi. destruct Hs as [q op fd0 addr len0 offset|q i e|q|q h Hh|q f d].
  - unfold prep_rw.
    pose proof (vacate_entry_tail_inv q Hi) as Hv.
    destruct (vacate_entry q) as [[i|] q1]; simpl in *; [|exact Hv].
    destruct Hv as (H1 & H2 & H3 & H4). unfold sq_tail_inv; cbn; auto.
  - destruct Hi as (H1 & H2 & H3 & H4). unfold sq_tail_inv; cbn; auto.
  - destruct Hi as (H1 & H2 & H3 & H4). unfold flush.
    destruct (negb (sqe_head q =? sqe_tail q)); unfold sq_tail_inv; cbn;
      [rewrite H2, wrapping_add_sub_cancel by lia|]; auto.
  - destruct Hi as (H1 & H2 & H3 & H4). unfold sq_tail_inv; cbn; auto.
  - destruct Hi as (H1 & H2 & H3 & H4). unfold sq_tail_inv; cbn; auto.
Qed.

Lemma sq_reachable_tail_inv : forall m s q,
  m_tail m = 0 -> sq_reachable m s q -> sq_tail_inv q.
Proof.
  intros m s q Ht Hr. unfold sq_reachable in Hr.
  assert (H0 : sq_tail_inv (sq_new m s)).
  { unfold sq_tail_inv, sq_new; cbn. rewrite Ht. repeat split; lia. }
  induction Hr as [q0|q0 q1 q2 Hs _ IH]; [exact H0|].
  apply IH. exact (sq_step_tail_inv _ _ Hs H0).
Qed.

(** C5: in every state reachable from [Queue::new] on a freshly set-up ring
    (kernel tail 0), [flush] leaves the shared tail equal to [sqe_tail] and
    to the tail shadow, which grew (wrapping) by [sqe_tail - sqe_head]; it
    snaps [sqe_head] to [sqe_tail], re-loads the head shadow from the shared
    head and returns tail shadow minus head shadow (wrapping). *)
Theorem flush_publishes_sqe_tail : forall m s q,
  m_tail m = 0 -> sq_reachable m s q ->
  let '(n, q') := flush q in
  sq_ktail q' = sqe_tail q' /\ sqe_tail q' = sqe_tail q /\
  sq_ktail q' = sq_ktail_shadow q' /\
  sq_ktail_shadow q' = wrapping_add (sq_ktail_shadow q) (wrapping_sub (sqe_tail q) (sqe_head q)) /\
  sqe_head q' = sqe_tail q /\
  sq_khead_shadow q' = sq_khead q /\
  n = wrapping_sub (sq_ktail_shadow q') (sq_khead_shadow q').
Proof.
  intros m s q Ht Hr.
  destruct (sq_reachable_tail_inv m s q Ht Hr) as (H1 & H2 & H3 & H4).
  unfold flush.
  destruct (Z.eqb_spec (sqe_head q) (sqe_tail q)) as [E|E]; cbn.
  - rewrite H2, E, H1, H2, E. unfold wrapping_sub, wrapping_add, wrap32.
    rewrite Z.sub_diag, Z.mod_0_l, Z.add_0_r, Z.mod_small by lia.
    repeat split; reflexivity.
  - rewrite H2, wrapping_add_sub_cancel by lia. repeat split; reflexivity.
Qed.

Lemma flush_publishes_sqe_tail_witness :
  let q := snd (prep_rw (sq_new fresh_sq_mem (fun _ => zero_sqe)) 0 (-1) 0 0 0) in
  let '(n, q') := flush q in
  sq_ktail q' = sqe_tail q' /\ sqe_tail q' = sqe_tail q /\
  sq_ktail q' = sq_ktail_shadow q' /\
  sq_ktail_shadow q' = wrapping_add (sq_ktail_shadow q) (wrapping_sub (sqe_tail q) (sqe_head q)) /\
  sqe_head q' = sqe_tail q /\
  sq_khead_shadow q' = sq_khead q /\
  n = wrapping_sub (sq_ktail_shadow q') (sq_khead_shadow q').
Proof.
  apply (flush_publishes_sqe_tail fresh_sq_mem (fun _ => zero_sqe)); [reflexivity|].
  eapply rt1n_trans; [apply step_prep_rw | apply rt1n_refl].
Defined.

(** *** Completion peeking *)

(** What [peek_cqe] can report, whatever the ring holds: never an entry
    tagged with the timeout sentinel, and as error only the thread's
    [errno]. *)
Lemma peek_cqe_outcomes : forall fuel errno q,
  match peek_cqe fuel errno q with
  | Some (Ok (Some e), _) => cqe_user_data e <> UDATA_TIMEOUT
  | Some (Err e, _) => e = errno
  | _ => True
  end.
Proof.
  induction fuel as [|fuel IH]; intros errno q; [exact I|].
  cbn [peek_cqe].
  set (q1 := if cq_khead_shadow q =? cq_ktail_shadow q then _ else q).
  destruct (cq_khead_shadow q1 =? cq_ktail_shadow q1); [exact I|].
  destruct (Z.eqb_spec (cqe_user_data (cqes q1 (Z.land (cq_khead_shadow q1) (cq_kring_mask q1)))) UDATA_TIMEOUT)
    as [E|E].
  - unfold cvt. destruct (0 <=? _); [apply IH|reflexivity].
  - exact E.
Qed.

(** A sentinel completion with a non-negative result is skipped: the head
    moves past it and the loop goes on with the next entry. *)
Lemma peek_cqe_skips_sentinel : forall fuel errno q,
  cq_khead_shadow q <> cq_ktail_shadow q ->
  cqe_user_data (cqes q (Z.land (cq_khead_shadow q) (cq_kring_mask q))) = UDATA_TIMEOUT ->
  0 <= cqe_res (cqes q (Z.land (cq_khead_shadow q) (cq_kring_mask q))) ->
  peek_cqe (S fuel) errno q = peek_cqe fuel errno (advance q 1).
Proof.
  intros fuel errno q Hne Hu Hr. cbn [peek_cqe].
  apply Z.eqb_neq in Hne. rewrite Hne, Hne, Hu, Z.eqb_refl.
  unfold cvt. apply Z.leb_le in Hr. rewrite Hr. reflexivity.
Qed.

(** C2 (code_bug): [peek_cqe] never hands out a sentinel entry, but a
    sentinel whose result is negative is reported as
    [Error::last_os_error()], the thread's [errno], not as an error built from
    the entry's result: with [res = -ETIME] in slot 0 and [errno = 0] the
    head is advanced past it and the error returned has code 0, not 62. *)
Theorem peek_cqe_sentinel_error_is_errno :
  (forall fuel errno q,
   match peek_cqe fuel errno q with
   | Some (Ok (Some e), _) => cqe_user_data e <> UDATA_TIMEOUT
   | Some (Err e, _) => e = errno
   | _ => True
   end) /\
  (let q := sample_cq None [{| cqe_user_data := UDATA_TIMEOUT; cqe_res := - ETIME; cqe_flags := 0 |}] in
   match peek_cqe 4 0 q with
   | Some (Err e, q') => e = 0 /\ e <> ETIME /\ cq_khead q' = 1 /\ cq_khead_shadow q' = 1
   | _ => False
   end).
Proof.
  split; [exact peek_cqe_outcomes|].
  vm_compute. repeat split; discriminate.
Qed.

(** *** Reaping completions *)

(** C9 (counterexample): [EAGAIN] also comes back when [to_wait] is not
    zero: on an empty completion queue [wait_cqe] ([to_wait = 1]) enters
    the kernel, and a kernel that fails [io_uring_enter] with [EAGAIN] makes
    [get_cqe] return that error. *)
Lemma get_cqe_eagain_from_enter :
  match get_cqe kernel_busy 2 3 (sample_world (sample_cq None []) 0) 0 1 None with
  | Some (Err e, w') => e = EAGAIN /\ w_enters w' = 1%nat
  | _ => False
  end.
Proof. vm_compute. split; reflexivity. Qed.

(** C9 (amended): in an iteration of the [get_cqe] loop where nothing is
    peeked and both [to_wait] and the pending submit count are zero,
    [get_cqe] returns its own [EAGAIN] at once, without entering the kernel;
    in any other iteration an error is returned only when it comes from
    [peek_cqe] (a timeout-sentinel completion with a negative result) or
    from the [io_uring_enter] syscall.  In particular [wait_cqe_nr(0)] on an
    empty completion queue fails with [EAGAIN] without a syscall. *)
Theorem get_cqe_eagain_spec : forall kernel_enter peek_fuel,
  (forall w submit to_wait wait_nr ret sig,
   match get_cqe_iter kernel_enter peek_fuel w submit to_wait wait_nr ret sig with
   | Some (Done (Err e) w') =>
       (peek_cqe peek_fuel (w_errno w) (ring_cq (w_ring w)) = Some (Ok None, ring_cq (w_ring w')) /\
        to_wait = 0 /\ submit = 0 /\ e = EAGAIN /\ w_enters w' = w_enters w) \/
       (exists q, peek_cqe peek_fuel (w_errno w) (ring_cq (w_ring w)) = Some (Err e, q)) \/
       (exists pk q mn flags, peek_cqe peek_fuel (w_errno w) (ring_cq (w_ring w)) = Some (Ok pk, q) /\
          fst (penter kernel_enter (w_set_cq w q) submit mn flags sig) = Err e)
   | _ => True
   end) /\
  (forall w submit to_wait wait_nr ret sig q,
   peek_cqe peek_fuel (w_errno w) (ring_cq (w_ring w)) = Some (Ok None, q) ->
   to_wait = 0 -> submit = 0 ->
   get_cqe_iter kernel_enter peek_fuel w submit to_wait wait_nr ret sig = Some (Done (Err EAGAIN) (w_set_cq w q))) /\
  (forall fuel w,
   (0 < fuel)%nat -> (0 < peek_fuel)%nat ->
   cq_khead_shadow (ring_cq (w_ring w)) = cq_ktail_shadow (ring_cq (w_ring w)) ->
   cq_ktail (ring_cq (w_ring w)) = cq_ktail_shadow (ring_cq (w_ring w)) ->
   exists w', wait_cqe_nr kernel_enter peek_fuel fuel w 0 = Some (Err EAGAIN, w') /\
              w_enters w' = w_enters w).
Proof.
  intros kernel_enter peek_fuel.
  assert (Hsecond : forall w submit to_wait wait_nr ret sig q,
   peek_cqe peek_fuel (w_errno w) (ring_cq (w_ring w)) = Some (Ok None, q) ->
   to_wait = 0 -> submit = 0 ->
   get_cqe_iter kernel_enter peek_fuel w submit to_wait wait_nr ret sig = Some (Done (Err EAGAIN) (w_set_cq w q))).
  { intros w submit to_wait wait_nr ret sig q Hp Ht Hs. subst.
    unfold get_cqe_iter. rewrite Hp. reflexivity. }
  split; [|split; [exact Hsecond|]].
  - intros w submit to_wait wait_nr ret sig. unfold get_cqe_iter.
    destruct (peek_cqe peek_fuel (w_errno w) (ring_cq (w_ring w))) as [[[pk|e] q]|] eqn:Hp;
      [|right; left; exists q; reflexivity|exact I].
    assert (Hk : forall peeked wn, match get_cqe_rest kernel_enter (w_set_cq w q) submit ret sig peeked wn with
                 | Done (Err e) w' => exists mn flags,
                     fst (penter kernel_enter (w_set_cq w q) submit mn flags sig) = Err e
                 | _ => True end).
    { intros peeked wn. unfold get_cqe_rest.
      destruct ((0 <? wn) || (0 <? submit)).
      - destruct (penter kernel_enter (w_set_cq w q) submit wn _ sig) as [[r|e] w2] eqn:He.
        + destruct (if r =? submit then _ else _) as [s' wn'].
          destruct peeked; exact I.
        + do 2 eexists. rewrite He. reflexivity.
      - destruct (if ret =? submit then _ else _) as [s' wn'].
        destruct peeked; exact I. }
    destruct pk as [cqe|].
    + specialize (Hk (Some cqe) (if 0 <? wait_nr then wait_nr - 1 else wait_nr)).
      destruct (get_cqe_rest _ _ _ _ _ _ _) as [[c|e] w'|]; try exact I.
      destruct Hk as [mn [flags He]]. right; right. exists (Some cqe), q, mn, flags. split; [reflexivity|exact He].
    + destruct (Z.eqb_spec to_wait 0) as [Ht|Ht]; destruct (Z.eqb_spec submit 0) as [Hs|Hs]; simpl.
      * left. repeat split; auto.
      * specialize (Hk None wait_nr). destruct (get_cqe_rest _ _ _ _ _ _ _) as [[c|e] w'|]; try exact I.
        destruct Hk as [mn [flags He]]. right; right. exists None, q, mn, flags. split; [reflexivity|exact He].
      * specialize (Hk None wait_nr). destruct (get_cqe_rest _ _ _ _ _ _ _) as [[c|e] w'|]; try exact I.
        destruct Hk as [mn [flags He]]. right; right. exists None, q, mn, flags. split; [reflexivity|exact He].
      * specialize (Hk None wait_nr). destruct (get_cqe_rest _ _ _ _ _ _ _) as [[c|e] w'|]; try exact I.
        destruct Hk as [mn [flags He]]. right; right. exists None, q, mn, flags. split; [reflexivity|exact He].
  - intros fuel w Hf Hpf Hempty Htail.
    destruct fuel as [|fuel]; [lia|]. destruct peek_fuel as [|pf]; [lia|].
    assert (Hp : exists q, peek_cqe (S pf) (w_errno w) (ring_cq (w_ring w)) = Some (Ok None, q)).
    { cbn [peek_cqe]. rewrite Hempty, Z.eqb_refl. cbn.
      rewrite Htail, Z.eqb_refl. eexists. reflexivity. }
    destruct Hp as [q Hp].
    exists (w_set_cq w q). split; [|reflexivity].
    unfold wait_cqe_nr, get_cqe. cbn [get_cqe_loop].
    rewrite (Hsecond w 0 0 0 0 None q Hp eq_refl eq_refl). reflexivity.
Qed.

Lemma get_cqe_eagain_spec_witness :
  get_cqe_iter kernel_busy 2 (sample_world (sample_cq None []) 0) 0 0 0 0 None =
    Some (Done (Err EAGAIN) (w_set_cq (sample_world (sample_cq None []) 0)
                                      (cq_set_shadows (sample_cq None []) 0 0 0))) /\
  exists w', wait_cqe_nr kernel_busy 2 1%nat (sample_world (sample_cq None []) 0) 0 = Some (Err EAGAIN, w') /\
             w_enters w' = w_enters (sample_world (sample_cq None []) 0).
Proof.
  split.
  - apply (proj1 (proj2 (get_cqe_eagain_spec kernel_busy 2))); reflexivity.
  - apply (proj2 (proj2 (get_cqe_eagain_spec kernel_busy 2)) 1%nat (sample_world (sample_cq None []) 0));
      [lia | lia | reflexivity | reflexivity].
Defined.

(** ** Further properties of the code *)

(** *** Completion entries and the completion queue *)

(** [buffer_id] reports a buffer exactly when bit 0 ([F_BUFFER]) of the
    flags is set; for flags [(bid << 16) | low] with a 16-bit [bid] and a
    16-bit [low] that has bit 0 set, it returns [bid]. *)
Theorem buffer_id_spec :
  (forall e, buffer_id e = None <-> Z.testbit (cqe_flags e) 0 = false) /\
  (forall ud res bid low, 0 <= bid < 2 ^ 16 -> 0 <= low < 2 ^ 16 -> Z.testbit low 0 = true ->
     buffer_id {| cqe_user_data := ud; cqe_res := res;
                  cqe_flags := Z.lor (Z.shiftl bid BUFFER_SHIFT) low |} = Some bid).
Proof.
  split.
  - intro e. unfold buffer_id, F_BUFFER. change (Z.shiftl 1 0) with 1.
    rewrite land_1_bit0. destruct (Z.testbit (cqe_flags e) 0); simpl; split; congruence.
  - intros ud res bid low Hb Hl H0. unfold buffer_id, F_BUFFER, BUFFER_SHIFT; cbn [cqe_flags].
    change (Z.shiftl 1 0) with 1. rewrite land_1_bit0, Z.lor_spec, H0, orb_true_r.
    change (negb (Z.b2z true =? 0)) with true. cbv beta iota.
    rewrite Z.shiftr_lor, Z.shiftr_shiftl_l by lia. rewrite Z.sub_diag, Z.shiftl_0_r.
    rewrite Z.shiftr_div_pow2, Z.div_small, Z.lor_0_r by lia.
    rewrite Z.land_ones, Z.mod_small by lia. reflexivity.
Qed.

Lemma buffer_id_spec_witness :
  buffer_id {| cqe_user_data := 7; cqe_res := 0; cqe_flags := Z.lor (Z.shiftl 5 BUFFER_SHIFT) 1 |} = Some 5.
Proof. apply (proj2 buffer_id_spec); [lia | lia | reflexivity]. Defined.

(** Advancing the head by [n] and then by [m] (both positive) is advancing
    it by [n + m] at once: same head shadow, same shared head. *)
Theorem advance_compose : forall q n m, 0 < n -> 0 < m ->
  advance (advance q n) m = advance q (n + m).
Proof.
  intros q n m Hn Hm. unfold advance.
  replace (0 <? n) with true by (symmetry; apply Z.ltb_lt; lia).
  replace (0 <? m) with true by (symmetry; apply Z.ltb_lt; lia).
  replace (0 <? n + m) with true by (symmetry; apply Z.ltb_lt; lia).
  unfold cq_set_shadows; cbn. unfold wrapping_add, wrap32.
  rewrite Zplus_mod_idemp_l, Z.add_assoc. reflexivity.
Qed.

Lemma advance_compose_witness :
  advance (advance (sample_cq None []) 1) 2 = advance (sample_cq None []) (1 + 2).
Proof. apply advance_compose; lia. Defined.

(** After a successful [toggle_eventfd q on], [eventfd_enabled] reads back
    [on]; the only failure is [EOPNOTSUPP], when the ring has no flags word
    and the caller asked to disable, and it leaves the queue unchanged. *)
Theorem toggle_eventfd_readback : forall q on,
  match toggle_eventfd q on with
  | (Ok _, q') => eventfd_enabled q' = on
  | (Err e, q') => e = EOPNOTSUPP /\ q' = q /\ cq_kflags q = None /\ on = false
  end.
Proof.
  intros q on. unfold toggle_eventfd.
  destruct (Bool.eqb_spec on (eventfd_enabled q)) as [E|E].
  - congruence.
  - unfold eventfd_enabled in *. destruct (cq_kflags q) as [f|] eqn:Hf.
    + unfold F_EVENTFD_DISABLED, u32_not in *. change (Z.shiftl 1 0) with 1 in *.
      rewrite land_1_bit0 in *.
      destruct on; cbn [cq_set_kflags cq_kflags]; rewrite land_1_bit0.
      * rewrite Z.land_spec, Z.lxor_spec, testbit_one, Z.testbit_ones by lia.
        rewrite andb_false_r. reflexivity.
      * rewrite Z.lor_spec, testbit_one, orb_true_r. reflexivity.
    + cbn. repeat split. destruct on; congruence.
Qed.

Lemma peek_cqe_entry_shape : forall fuel errno q e q',
  peek_cqe fuel errno q = Some (Ok (Some e), q') ->
  cq_khead_shadow q' <> cq_ktail_shadow q' /\
  cqes q' (Z.land (cq_khead_shadow q') (cq_kring_mask q')) = e /\
  cqe_user_data e <> UDATA_TIMEOUT.
Proof.
  induction fuel as [|fuel IH]; intros errno q e q' H; [discriminate|].
  simpl in H.
  set (q1 := if cq_khead_shadow q =? cq_ktail_shadow q
             then cq_set_shadows q (cq_khead q) (cq_khead_shadow q) (cq_ktail q) else q) in H.
  destruct (Z.eqb_spec (cq_khead_shadow q1) (cq_ktail_shadow q1)) as [E1|E1]; [discriminate|].
  destruct (Z.eqb_spec (cqe_user_data (cqes q1 (Z.land (cq_khead_shadow q1) (cq_kring_mask q1)))) UDATA_TIMEOUT) as [E2|E2].
  - destruct (cvt errno _); [|discriminate]. exact (IH _ _ _ _ H).
  - inversion H; subst. auto.
Qed.

Lemma peek_cqe_ready : forall fuel errno q,
  cq_khead_shadow q <> cq_ktail_shadow q ->
  cqe_user_data (cqes q (Z.land (cq_khead_shadow q) (cq_kring_mask q))) <> UDATA_TIMEOUT ->
  peek_cqe (S fuel) errno q = Some (Ok (Some (cqes q (Z.land (cq_khead_shadow q) (cq_kring_mask q)))), q).
Proof.
  intros fuel errno q H1 H2. simpl. apply Z.eqb_neq in H1. rewrite H1, H1.
  apply Z.eqb_neq in H2. rewrite H2. reflexivity.
Qed.

(** [peek_cqe] does not consume what it returns: peeking again from the
    state it leaves returns the same entry and leaves the state as it is. *)
Theorem peek_cqe_idempotent : forall fuel fuel' errno errno' q e q',
  peek_cqe fuel errno q = Some (Ok (Some e), q') ->
  peek_cqe (S fuel') errno' q' = Some (Ok (Some e), q').
Proof.
  intros fuel fuel' errno errno' q e q' H.
  destruct (peek_cqe_entry_shape _ _ _ _ _ H) as (H1 & H2 & H3).
  subst e. apply peek_cqe_ready; assumption.
Qed.

Lemma peek_cqe_idempotent_witness :
  peek_cqe 1 0 (cq_set_shadows (sample_cq None [e9]) 0 0 1) =
    Some (Ok (Some e9), cq_set_shadows (sample_cq None [e9]) 0 0 1).
Proof. apply (peek_cqe_idempotent 1 0 0 0 (sample_cq None [e9])). reflexivity. Defined.

(** Peeking an empty ring (head shadow, tail shadow and both shared words
    equal) reports no entry and changes nothing. *)
Theorem peek_cqe_empty : forall fuel errno q,
  cq_khead_shadow q = cq_ktail_shadow q -> cq_ktail q = cq_ktail_shadow q ->
  cq_khead q = cq_khead_shadow q ->
  peek_cqe (S fuel) errno q = Some (Ok None, q).
Proof.
  intros fuel errno [h t m n f o es hs ts] H1 H2 H3. cbn in H1, H2, H3. subst.
  simpl. rewrite !Z.eqb_refl. reflexivity.
Qed.

Lemma peek_cqe_empty_witness : peek_cqe 1 0 (sample_cq None []) = Some (Ok None, sample_cq None []).
Proof. apply peek_cqe_empty; reflexivity. Defined.

Lemma wrapping_sub_diag : forall x, wrapping_sub x x = 0.
Proof. intro x. unfold wrapping_sub, wrap32. rewrite Z.sub_diag. reflexivity. Qed.

Lemma wrapping_sub_succ : forall t h,
  0 <= t < 2 ^ 32 -> 0 <= h < 2 ^ 32 -> t <> h ->
  wrapping_sub t (wrapping_add h 1) = wrapping_sub t h - 1.
Proof.
  intros t h Ht Hh Hne. unfold wrapping_sub, wrapping_add, wrap32.
  rewrite Zminus_mod_idemp_r.
  destruct (Z_lt_le_dec h t).
  - rewrite !Z.mod_small by lia. lia.
  - rewrite <- (Z.mod_unique (t - (h + 1)) (2 ^ 32) (-1) (t - (h + 1) + 2 ^ 32)) by lia.
    rewrite <- (Z.mod_unique (t - h) (2 ^ 32) (-1) (t - h + 2 ^ 32)) by lia. lia.
Qed.

(** The loop of [peek_cqe] ends: with the shadows and the shared tail
    32-bit, more iterations than (tail shadow - head shadow) + (shared
    tail - tail shadow) (wrapping) always give an answer. *)
Theorem peek_cqe_terminates : forall fuel errno q,
  0 <= cq_khead_shadow q < 2 ^ 32 -> 0 <= cq_ktail_shadow q < 2 ^ 32 -> 0 <= cq_ktail q < 2 ^ 32 ->
  wrapping_sub (cq_ktail_shadow q) (cq_khead_shadow q) +
  wrapping_sub (cq_ktail q) (cq_ktail_shadow q) < Z.of_nat fuel ->
  peek_cqe fuel errno q <> None.
Proof.
  induction fuel as [|fuel IH]; intros errno q Hh Ht Hk Hm.
  - pose proof (wrap32_range (cq_ktail_shadow q - cq_khead_shadow q)).
    pose proof (wrap32_range (cq_ktail q - cq_ktail_shadow q)).
    unfold wrapping_sub in Hm. lia.
  - rewrite Nat2Z.inj_succ in Hm. cbn [peek_cqe].
    destruct (Z.eqb_spec (cq_khead_shadow q) (cq_ktail_shadow q)) as [E|E];
      cbn [cq_set_shadows cq_khead_shadow cq_ktail_shadow cq_kring_mask cqes].
    + destruct (Z.eqb_spec (cq_khead_shadow q) (cq_ktail q)) as [E2|E2]; [discriminate|].
      destruct (_ =? UDATA_TIMEOUT); [|discriminate].
      destruct (cvt _ _); [|discriminate].
      unfold advance. cbn [Z.ltb Z.compare]. apply IH; cbn; try apply wrap32_range; try lia.
      rewrite wrapping_sub_diag, wrapping_sub_succ by lia.
      rewrite <- E, wrapping_sub_diag in Hm. lia.
    + destruct (Z.eqb_spec (cq_khead_shadow q) (cq_ktail_shadow q)) as [E2|E2]; [contradiction|].
      destruct (_ =? UDATA_TIMEOUT); [|discriminate].
      destruct (cvt _ _); [|discriminate].
      unfold advance. cbn [Z.ltb Z.compare]. apply IH; cbn; try apply wrap32_range; try lia.
      rewrite wrapping_sub_succ by lia. lia.
Qed.

Lemma peek_cqe_terminates_witness :
  peek_cqe 3 0 (sample_cq None [sentinel_ok; sentinel_ok]) <> None.
Proof. apply peek_cqe_terminates; cbn; lia. Defined.

(** *** Driver *)

(** [wait_cqe] on a ring whose head holds a published, ordinary entry
    returns that entry and advances the head by one, without entering the
    kernel (whatever the kernel would do): the world is otherwise left as it
    was, the count of [io_uring_enter] calls included. *)
Theorem wait_cqe_ready : forall kernel_enter peek_fuel fuel w,
  let q := ring_cq (w_ring w) in
  cq_khead_shadow q <> cq_ktail_shadow q ->
  cqe_user_data (cqes q (Z.land (cq_khead_shadow q) (cq_kring_mask q))) <> UDATA_TIMEOUT ->
  wait_cqe kernel_enter (S peek_fuel) (S fuel) w =
  Some (Ok (cqes q (Z.land (cq_khead_shadow q) (cq_kring_mask q))), w_set_cq w (advance q 1)).
Proof.
  intros kernel_enter peek_fuel fuel w q H1 H2.
  unfold wait_cqe, get_cqe. cbn [get_cqe_loop]. unfold get_cqe_iter.
  unfold q in *. rewrite (peek_cqe_ready peek_fuel (w_errno w) _ H1 H2). reflexivity.
Qed.

Lemma wait_cqe_ready_witness :
  wait_cqe kernel_busy 1 1 ready_world =
  Some (Ok e9, w_set_cq ready_world (advance (ring_cq (w_ring ready_world)) 1)).
Proof.
  refine (wait_cqe_ready kernel_busy 0 0 ready_world _ _); cbn; [discriminate|].
  unfold UDATA_TIMEOUT. lia.
Defined.

Lemma flush_kflags : forall q, sq_kflags (snd (flush q)) = sq_kflags q.
Proof. intro q. unfold flush. destruct (negb _); reflexivity. Qed.

Lemma need_wakeup_flush : forall q, need_wakeup (snd (flush q)) = need_wakeup q.
Proof. intro q. unfold need_wakeup. rewrite flush_kflags. reflexivity. Qed.

(** When [submit_and_wait] enters the kernel.  With [SQPOLL] and the
    poller awake ([NEED_WAKEUP] clear), [submit] makes no syscall and returns
    the flushed in-flight count.  Without [SQPOLL], [submit] with entries in
    flight enters once, asking for no completions, with [GETEVENTS] exactly
    when [IOPOLL] is set.  With [wait_nr > 0], [submit_and_wait] always
    enters with [min_complete = wait_nr] and [GETEVENTS] set. *)
Theorem submit_and_wait_enter_decision : forall kernel_enter w wait_nr,
  let '(submitted, sq') := flush (ring_sq (w_ring w)) in
  let w1 := w_set_sq w sq' in
  (contains (ring_flags (w_ring w)) SQPOLL = true -> need_wakeup (ring_sq (w_ring w)) = false ->
   submit kernel_enter w = (Ok submitted, w1)) /\
  (contains (ring_flags (w_ring w)) SQPOLL = false -> 0 < submitted ->
   submit kernel_enter w =
   enter kernel_enter w1 submitted 0
     (if contains (ring_flags (w_ring w)) IOPOLL then GETEVENTS else 0)) /\
  (0 < wait_nr -> exists flags,
   submit_and_wait kernel_enter w wait_nr = enter kernel_enter w1 submitted wait_nr flags /\
   contains flags GETEVENTS = true).
Proof.
  intros kernel_enter w wait_nr.
  pose proof (need_wakeup_flush (ring_sq (w_ring w))) as Hw.
  unfold submit, submit_and_wait.
  destruct (flush (ring_sq (w_ring w))) as [submitted sq'] eqn:Hf. simpl in Hw.
  unfold need_enter. cbn [w_set_sq w_ring ring_flags ring_sq].
  split; [|split].
  - intros Hs Hn. rewrite Hs, Hw, Hn. reflexivity.
  - intros Hs Hp. rewrite Hs. replace (0 <? submitted) with true by (symmetry; apply Z.ltb_lt; exact Hp).
    cbn [negb andb orb Z.ltb Z.compare]. destruct (contains _ IOPOLL); reflexivity.
  - intros Hp. replace (0 <? wait_nr) with true by (symmetry; apply Z.ltb_lt; exact Hp).
    destruct (negb _ && _); [|destruct (need_wakeup sq')]; cbn [orb];
      eexists; (split; [reflexivity|]);
      unfold contains, GETEVENTS, SQ_WAKEUP; change (Z.shiftl 1 0) with 1; rewrite land_1_bit0;
      [rewrite Z.lor_spec, testbit_one; reflexivity
      |rewrite !Z.lor_spec, !testbit_one; reflexivity
      |rewrite Z.lor_spec, testbit_one; reflexivity].
Qed.

Lemma submit_and_wait_enter_decision_witness :
  (let '(submitted, sq') := flush (ring_sq (w_ring (sample_world_sq SQPOLL (sample_sq 1 0)))) in
   submit kernel_busy (sample_world_sq SQPOLL (sample_sq 1 0)) =
   (Ok submitted, w_set_sq (sample_world_sq SQPOLL (sample_sq 1 0)) sq')) /\
  (let '(submitted, sq') := flush (ring_sq (w_ring (sample_world_sq 0 (sample_sq 1 0)))) in
   submit kernel_busy (sample_world_sq 0 (sample_sq 1 0)) =
   enter kernel_busy (w_set_sq (sample_world_sq 0 (sample_sq 1 0)) sq') submitted 0 0 /\
   exists flags,
   submit_and_wait kernel_busy (sample_world_sq 0 (sample_sq 1 0)) 1 =
   enter kernel_busy (w_set_sq (sample_world_sq 0 (sample_sq 1 0)) sq') submitted 1 flags /\
   contains flags GETEVENTS = true).
Proof.
  split.
  - pose proof (submit_and_wait_enter_decision kernel_busy (sample_world_sq SQPOLL (sample_sq 1 0)) 0) as H.
    destruct (flush _) as [n q'] eqn:Hf. apply (proj1 H); reflexivity.
  - pose proof (submit_and_wait_enter_decision kernel_busy (sample_world_sq 0 (sample_sq 1 0)) 1) as H.
    destruct (flush _) as [n q'] eqn:Hf. vm_compute in Hf. injection Hf as Hn Hq.
    destruct H as (_ & HB & HC). split.
    + apply HB; [reflexivity | subst n; lia].
    + apply HC. lia.
Defined.

(** *** Builder *)

(** The setup flags [try_build] hands to the kernel are the builder's
    starting flags with the bits of every option applied OR-ed in: no option
    clears a bit, and the order of the options does not matter to them. *)
Theorem params_flags_knobs : forall ks b,
  p_flags (params (apply_knobs b ks)) = fold_left Z.lor (map knob_bits ks) (b_flags b).
Proof.
  unfold params, apply_knobs. cbn [p_flags].
  induction ks as [|k ks IH]; intro b; [reflexivity|].
  cbn [fold_left map]. rewrite IH. f_equal.
  destruct k; cbn; try reflexivity. rewrite <- Z.lor_assoc. reflexivity.
Qed.

(** *** Submission ring set-up and occupancy *)

Lemma sq_fill_array_spec : forall k n array head i s,
  0 <= k <= 32 -> (Z.of_nat n <= 2 ^ k) -> 0 <= i ->
  sq_fill_array n array (Z.ones k) head i s =
  if (0 <=? s) && (s <? 2 ^ k) && ((s - i) mod 2 ^ k <? Z.of_nat n)
  then head + (s - i) mod 2 ^ k else array s.
Proof.
  intros k n. induction n as [|n IH]; intros array head i s Hk Hn Hi.
  - cbn [sq_fill_array]. destruct ((0 <=? s) && (s <? 2 ^ k)); [|reflexivity].
    pose proof (Z.mod_pos_bound (s - i) (2 ^ k)).
    replace ((s - i) mod 2 ^ k <? Z.of_nat 0) with false by (symmetry; apply Z.ltb_ge; lia).
    reflexivity.
  - cbn [sq_fill_array].
    rewrite Nat2Z.inj_succ in Hn.
    assert (HE : 0 < 2 ^ k) by (apply Z.pow_pos_nonneg; lia).
    rewrite IH by (try apply wrap32_range; lia).
    (* the wrapped counter is congruent to [i + 1] modulo the ring size *)
    assert (Hw : (s - wrapping_add i 1) mod 2 ^ k = (s - (i + 1)) mod 2 ^ k).
    { unfold wrapping_add, wrap32. rewrite (Z.mod_eq (i + 1) (2 ^ 32)) by lia.
      replace (2 ^ 32) with (2 ^ k * 2 ^ (32 - k)) by (rewrite <- Z.pow_add_r by lia; f_equal; lia).
      replace (s - (i + 1 - 2 ^ k * 2 ^ (32 - k) * ((i + 1) / (2 ^ k * 2 ^ (32 - k)))))
        with (s - (i + 1) + (2 ^ (32 - k) * ((i + 1) / (2 ^ k * 2 ^ (32 - k)))) * 2 ^ k) by ring.
      apply Z.mod_add. lia. }
    rewrite Hw, Z.land_ones by lia.
    destruct (Z.leb_spec 0 s) as [Hs0|Hs0]; destruct (Z.ltb_spec s (2 ^ k)) as [Hs1|Hs1];
      cbn [andb]; try reflexivity.
    + set (d := (s - i) mod 2 ^ k).
      assert (Hd : 0 <= d < 2 ^ k) by (apply Z.mod_pos_bound; lia).
      destruct (Z.eq_dec d 0) as [Hd0|Hd0].
      * (* [s] is the slot written now *)
        assert (Hsi : s = i mod 2 ^ k).
        { rewrite <- (Z.mod_small s (2 ^ k)) by lia.
          replace s with ((s - i) + i) at 1 by ring.
          rewrite Z.add_mod by lia. fold d. rewrite Hd0, Z.add_0_l, Z.mod_mod by lia. reflexivity. }
        assert (Hm : (s - (i + 1)) mod 2 ^ k = 2 ^ k - 1).
        { replace (s - (i + 1)) with ((s - i) + (-1)) by ring.
          rewrite Z.add_mod by lia. fold d. rewrite Hd0, Z.add_0_l, Z.mod_mod by lia.
          symmetry. apply (Z.mod_unique (-1) (2 ^ k) (-1)); [left; lia | ring]. }
        rewrite Hm. replace (2 ^ k - 1 <? Z.of_nat n) with false by (symmetry; apply Z.ltb_ge; lia).
        replace (d <? Z.of_nat (S n)) with true by (symmetry; apply Z.ltb_lt; lia).
        rewrite Hsi, Z.eqb_refl. lia.
      * assert (Hm : (s - (i + 1)) mod 2 ^ k = d - 1).
        { replace (s - (i + 1)) with ((s - i) + (-1)) by ring.
          rewrite Z.add_mod by lia. fold d.
          rewrite <- (Z.mod_unique (-1) (2 ^ k) (-1) (2 ^ k - 1)) by lia.
          symmetry. apply (Z.mod_unique _ _ 1); [left; lia|]. ring. }
        assert (Hne : s <> i mod 2 ^ k).
        { intro Hsi. apply Hd0. unfold d. rewrite Hsi.
          rewrite Zminus_mod_idemp_l, Z.sub_diag. reflexivity. }
        rewrite Hm. apply Z.eqb_neq in Hne. rewrite Hne.
        destruct (Z.ltb_spec (d - 1) (Z.of_nat n)); destruct (Z.ltb_spec d (Z.of_nat (S n)));
          try lia.
    + (* a slot outside the ring is never written *)
      assert (Hne : s <> i mod 2 ^ k) by (pose proof (Z.mod_pos_bound i (2 ^ k)); lia).
      apply Z.eqb_neq in Hne. rewrite Hne. reflexivity.
    + assert (Hne : s <> i mod 2 ^ k) by (pose proof (Z.mod_pos_bound i (2 ^ k)); lia).
      apply Z.eqb_neq in Hne. rewrite Hne. reflexivity.
    + assert (Hne : s <> i mod 2 ^ k) by (pose proof (Z.mod_pos_bound i (2 ^ k)); lia).
      apply Z.eqb_neq in Hne. rewrite Hne. reflexivity.
Qed.

(** On a ring of [2^k] entries with mask [2^k - 1], [Queue::new] writes the
    identity permutation shifted by the kernel tail [t]: array slot [s] of
    the ring holds [(s - t) mod 2^k], so ring position [t + j] refers to
    submission entry [j]; words past the ring are not written. *)
Theorem sq_new_array_identity : forall m array k s,
  0 <= k <= 32 -> m_ring_entries m = 2 ^ k -> m_ring_mask m = 2 ^ k - 1 ->
  0 <= m_tail m < 2 ^ 32 ->
  sq_new_array m array s =
  if (0 <=? s) && (s <? 2 ^ k) then (s - m_tail m) mod 2 ^ k else array s.
Proof.
  intros m array k s Hk HE Hm Ht. unfold sq_new_array.
  rewrite HE, Hm. replace (2 ^ k - 1) with (Z.ones k) by (rewrite Z.ones_equiv; lia).
  assert (Hp : 0 < 2 ^ k) by (apply Z.pow_pos_nonneg; lia).
  rewrite sq_fill_array_spec by (rewrite ?Z2Nat.id; lia).
  rewrite Z2Nat.id by lia.
  pose proof (Z.mod_pos_bound (s - m_tail m) (2 ^ k) Hp).
  replace ((s - m_tail m) mod 2 ^ k <? 2 ^ k) with true by (symmetry; apply Z.ltb_lt; lia).
  rewrite andb_true_r. reflexivity.
Qed.

Lemma sq_new_array_identity_witness :
  sq_new_array {| m_head := 0; m_tail := 6; m_ring_mask := 3; m_ring_entries := 4;
                  m_flags := 0; m_dropped := 0 |} (fun _ => 99) 1 = 3.
Proof.
  rewrite (sq_new_array_identity _ _ 2); [reflexivity | lia | reflexivity | reflexivity | cbn; lia].
Defined.

(** [flush] twice in a row: the second flush publishes nothing, returns the
    same count and leaves the queue as the first one did. *)
Theorem flush_idempotent : forall q,
  let '(n, q1) := flush q in flush q1 = (n, q1).
Proof.
  intro q. unfold flush at 1.
  destruct (Z.eqb_spec (sqe_head q) (sqe_tail q)) as [E|E]; cbn [negb].
  - unfold flush. cbn. rewrite E, Z.eqb_refl. cbn. destruct q; reflexivity.
  - unfold flush. cbn. rewrite Z.eqb_refl. reflexivity.
Qed.

Lemma wrapping_sub_wraps : forall a b, wrapping_sub (wrap32 a) (wrap32 b) = wrap32 (a - b).
Proof.
  intros a b. unfold wrapping_sub, wrap32.
  rewrite Zminus_mod_idemp_l, Zminus_mod_idemp_r. reflexivity.
Qed.

Lemma wrap32_add_wrap : forall x y, wrap32 (wrap32 x + y) = wrap32 (x + y).
Proof. intros x y. unfold wrap32. apply Zplus_mod_idemp_l. Qed.

Lemma wrap32_idem : forall x, wrap32 (wrap32 x) = wrap32 x.
Proof. intro x. apply wrap32_small, wrap32_range. Qed.

Lemma sq_kstep_step : forall q q', sq_kstep q q' -> sq_step q q'.
Proof.
  intros q q' H. destruct H.
  - apply step_prep_rw.
  - apply step_write_slot.
  - apply step_flush.
  - apply step_kernel_head. apply wrap32_range.
  - apply step_kernel_words.
Qed.
Lemma vacate_entry_occ_inv : forall E q, sq_occ_inv E q -> sq_occ_inv E (snd (vacate_entry q)).
Proof.
  intros E q Hi. pose proof (vacate_entry_tail_inv q (proj1 Hi)) as Ht.
  destruct Hi as (_ & HE & HEr & Hhs & d1 & d2 & d3 & H1 & H2 & H3 & Hs & Hh & Hk & Htl).
  revert Ht. unfold vacate_entry.
  set (hs := sq_khead_shadow q) in *.
  destruct (Z.eqb_spec (wrapping_sub (sqe_tail q) hs) (sq_kring_entries q)) as [F1|F1].
  - cbn [sq_set_khead_shadow sqe_tail sq_khead_shadow sq_kring_entries].
    assert (Hw : wrapping_sub (sqe_tail q) (sq_khead q) = d2 + d3).
    { rewrite Htl, Hh, wrapping_sub_wraps.
      replace (hs + d1 + d2 + d3 - (hs + d1)) with (d2 + d3) by ring. apply wrap32_small. lia. }
    rewrite Hw.
    destruct (Z.eqb_spec (d2 + d3) (sq_kring_entries q)) as [F2|F2]; cbn;
      intro Ht; (split; [exact Ht|]); cbn; (split; [exact HE|]); (split; [exact HEr|]);
      (split; [rewrite Hh; apply wrap32_range|]).
    + exists 0, d2, d3. rewrite Hh, Z.add_0_r, wrap32_idem, !wrap32_add_wrap.
      repeat split; try lia; try reflexivity.
      rewrite Htl, <- (Z.add_assoc (wrap32 _)), wrap32_add_wrap. f_equal. lia.
    + exists 0, d2, (d3 + 1). rewrite Hh, Z.add_0_r, wrap32_idem, !wrap32_add_wrap.
      repeat split; try lia; try reflexivity; idtac.
      rewrite Htl, <- (Z.add_assoc (wrap32 _)), wrap32_add_wrap. unfold wrapping_add. rewrite wrap32_add_wrap. f_equal. lia.
  - cbn. intro Ht. (split; [exact Ht|]); cbn; (split; [exact HE|]); (split; [exact HEr|]).
    split; [exact Hhs|].
    assert (Hw : wrapping_sub (sqe_tail q) hs = d1 + d2 + d3).
    { rewrite Htl, <- !Z.add_assoc. apply wrapping_sub_wrap_add. lia. }
    exists d1, d2, (d3 + 1). repeat split; try lia; try assumption.
    rewrite Htl. unfold wrapping_add. rewrite wrap32_add_wrap. f_equal. lia.
Qed.

Lemma sq_kstep_occ_inv : forall E q q', sq_kstep q q' -> sq_occ_inv E q -> sq_occ_inv E q'.
Proof.
  intros E q q' Hs Hi.
  pose proof (sq_step_tail_inv q q' (sq_kstep_step q q' Hs) (proj1 Hi)) as Ht'.
  destruct Hs as [q op fd0 addr len0 offset|q i e|q|q d Hd|q f d].
  - unfold prep_rw in Ht' |- *. pose proof (vacate_entry_occ_inv E q Hi) as Hv.
    destruct (vacate_entry q) as [[i|] q1]; cbn in Hv, Ht' |- *; [|exact Hv].
    destruct Hv as (_ & HE & HEr & Hhs & Hex). split; [exact Ht'|]. cbn. auto.
  - destruct Hi as (_ & HE & HEr & Hhs & Hex). split; [exact Ht'|]. cbn. auto.
  - destruct Hi as ((T1 & T2 & T3 & T4) & HE & HEr & Hhs & d1 & d2 & d3 & H1 & H2 & H3 & Hs & Hh & Hk & Htl).
    split; [exact Ht'|].
    assert (Hf : sq_ktail (snd (flush q)) = sqe_tail q /\ sqe_tail (snd (flush q)) = sqe_tail q /\
                 sq_khead_shadow (snd (flush q)) = sq_khead q /\ sq_khead (snd (flush q)) = sq_khead q /\
                 sq_kring_entries (snd (flush q)) = sq_kring_entries q).
    { unfold flush. destruct (Z.eqb_spec (sqe_head q) (sqe_tail q)) as [F|F]; cbn.
      - rewrite T1, T2, F. auto.
      - rewrite T2, wrapping_add_sub_cancel by lia. auto. }
    destruct Hf as (F1 & F2 & F3 & F4 & F5).
    rewrite F1, F2, F3, F4, F5. split; [exact HE|]. split; [exact HEr|].
    split; [rewrite Hh; apply wrap32_range|].
    exists 0, (d2 + d3), 0. rewrite Hh, !Z.add_0_r, wrap32_idem, !wrap32_add_wrap.
    repeat split; try lia. all: rewrite Htl; f_equal; lia.
  - destruct Hi as (_ & HE & HEr & Hhs & d1 & d2 & d3 & H1 & H2 & H3 & Hs & Hh & Hk & Htl).
    split; [exact Ht'|]. cbn. split; [exact HE|]. split; [exact HEr|]. split; [exact Hhs|].
    assert (Hw : wrapping_sub (sq_ktail q) (sq_khead q) = d2).
    { rewrite Hk, Hh, wrapping_sub_wraps. replace (sq_khead_shadow q + d1 + d2 - (sq_khead_shadow q + d1)) with d2 by ring.
      apply wrap32_small. lia. }
    rewrite Hw in Hd.
    exists (d1 + d), (d2 - d), d3. unfold wrapping_add. rewrite Hh, wrap32_add_wrap.
    repeat split; try lia. all: try rewrite Hk; try rewrite Htl; f_equal; lia.
  - destruct Hi as (_ & HE & HEr & Hhs & Hex). split; [exact Ht'|]. cbn. auto.
Qed.

(** With a kernel that consumes only published entries, every state
    reachable from [Queue::new] on a fresh ring (head and tail 0) has at
    most [ring_entries] entries between the head shadow and [sqe_tail]
    (wrapping), and no more between the kernel head and [sqe_tail]: the
    library never hands out a slot the kernel has not consumed. *)
Theorem sq_occupancy_bounded : forall m s q,
  m_head m = 0 -> m_tail m = 0 -> 0 <= m_ring_entries m < 2 ^ 32 ->
  sq_kreachable m s q ->
  sq_kring_entries q = m_ring_entries m /\
  wrapping_sub (sqe_tail q) (sq_khead q) <= wrapping_sub (sqe_tail q) (sq_khead_shadow q) /\
  wrapping_sub (sqe_tail q) (sq_khead_shadow q) <= sq_kring_entries q.
Proof.
  intros m s q Hh Ht HE Hr. unfold sq_kreachable in Hr.
  assert (H0 : sq_occ_inv (m_ring_entries m) (sq_new m s)).
  { unfold sq_occ_inv, sq_tail_inv, sq_new; cbn. rewrite Hh, Ht.
    repeat split; try lia. exists 0, 0, 0. repeat split; try lia; reflexivity. }
  assert (Hq : sq_occ_inv (m_ring_entries m) q).
  { induction Hr as [q0|q0 q1 q2 Hs _ IH]; [exact H0|].
    apply IH. exact (sq_kstep_occ_inv _ _ _ Hs H0). }
  destruct Hq as (_ & HE' & _ & Hhs & d1 & d2 & d3 & H1 & H2 & H3 & Hs & Hh' & Hk & Htl).
  rewrite Htl, Hh', wrapping_sub_wraps.
  rewrite <- !Z.add_assoc, wrapping_sub_wrap_add by lia.
  replace (sq_khead_shadow q + (d1 + (d2 + d3)) - (sq_khead_shadow q + d1)) with (d2 + d3) by ring.
  rewrite wrap32_small by lia. lia.
Qed.

Lemma sq_occupancy_bounded_witness :
  let q := snd (prep_rw (sq_new fresh_sq_mem (fun _ => zero_sqe)) 0 (-1) 0 0 0) in
  sq_kring_entries q = m_ring_entries fresh_sq_mem /\
  wrapping_sub (sqe_tail q) (sq_khead q) <= wrapping_sub (sqe_tail q) (sq_khead_shadow q) /\
  wrapping_sub (sqe_tail q) (sq_khead_shadow q) <= sq_kring_entries q.
Proof.
  intro q. apply (sq_occupancy_bounded fresh_sq_mem (fun _ => zero_sqe) q);
    [reflexivity | reflexivity | cbn; lia |].
  eapply rt1n_trans; [apply kstep_prep_rw | apply rt1n_refl].
Defined.
